(** * Raft3D: the replicated print-workflow state machine

    A shallow embedding of [models/models.go] (entities, id allocator,
    status-transition and filament-budget validators) and of
    [store/fsm.go] (the FSM: [Apply], [Snapshot], [Persist], [Restore]),
    followed by the properties of the specification.

    Conventions of the embedding:
    - Go's [int] is the 64-bit two's-complement integer; it is carried as
      a [Z] and every [+], [-] and [++] of the source is written with the
      wrap-around ([int_add], [int_sub]).
    - Go maps [map[string]T] are [gmap string T].  Every map of a store is
      allocated ([NewStore], [Snapshot] and the decoder all allocate them).
    - [encoding/json] is a library outside the repository: its decoding and
      encoding functions are the operations of the class [Json].
    - [time.Now()] reads the host's clock: the clock is an explicit stream
      of readings that [Apply] consumes.
    - [f.mu] (the readers/writer lock) has no effect on the sequential
      behaviour and is left out. *)

From Stdlib Require Import ZArith Lia.
From stdpp Require Import base option list strings pretty gmap fin_maps.

Local Open Scope Z_scope.

(** ** Machine integers *)

Definition int_min : Z := - 2 ^ 63.
Definition int_max : Z := 2 ^ 63 - 1.

(** The value a 64-bit signed register holds after computing [z]. *)
Definition wrap (z : Z) : Z := (z + 2 ^ 63) `mod` 2 ^ 64 - 2 ^ 63.

Definition int_add (a b : Z) : Z := wrap (a + b).
Definition int_sub (a b : Z) : Z := wrap (a - b).

Definition in_int (z : Z) : Prop := int_min ≤ z ≤ int_max.

(** [strconv.Itoa] *)
Definition Itoa (z : Z) : string := pretty z.

(** ** models/models.go *)

Definition bytes := list Byte.byte.
Definition error := string.

(** [time.Time], as the instant it denotes (Unix nanoseconds). *)
Definition Time := Z.

Definition CreatePrinter : string := "CREATE_PRINTER".
Definition CreateFilament : string := "CREATE_FILAMENT".
Definition CreatePrintJob : string := "CREATE_PRINT_JOB".
Definition UpdatePrintJob : string := "UPDATE_PRINT_JOB".

Record Command := mkCommand {
  Cmd_Type : string;
  Cmd_Data : bytes;
  Cmd_ID : string;
  Cmd_Status : string
}.

Record Printer := mkPrinter {
  Printer_ID : string;
  Company : string;
  Model : string
}.

Record Filament := mkFilament {
  Filament_ID : string;
  Filament_Type : string;
  Color : string;
  TotalWeightInGrams : Z;
  RemainingWeightInGrams : Z
}.

Definition Queued : string := "Queued".
Definition Running : string := "Running".
Definition Done : string := "Done".
Definition Canceled : string := "Canceled".

Record PrintJob := mkPrintJob {
  PrintJob_ID : string;
  PrinterID : string;
  FilamentID : string;
  Filepath : string;
  PrintWeightInGrams : Z;
  PrintJob_Status : string;
  CreatedAt : Time;
  UpdatedAt : Time
}.

Record Store := mkStore {
  Printers : gmap string Printer;
  Filaments : gmap string Filament;
  PrintJobs : gmap string PrintJob;
  NextID : gmap string Z
}.

(** The zero value of [Filament], which a Go map lookup returns for a
    missing key. *)
Definition zeroFilament : Filament := mkFilament "" "" "" 0 0.

Definition NewStore : Store :=
  mkStore ∅ ∅ ∅ (<["printer" := 1]> (<["filament" := 1]> (<["printjob" := 1]> ∅))).

Definition set_Printers (s : Store) (m : gmap string Printer) : Store :=
  mkStore m (Filaments s) (PrintJobs s) (NextID s).
Definition set_Filaments (s : Store) (m : gmap string Filament) : Store :=
  mkStore (Printers s) m (PrintJobs s) (NextID s).
Definition set_PrintJobs (s : Store) (m : gmap string PrintJob) : Store :=
  mkStore (Printers s) (Filaments s) m (NextID s).
Definition set_NextID (s : Store) (m : gmap string Z) : Store :=
  mkStore (Printers s) (Filaments s) (PrintJobs s) m.

(** [GetNextID]: the current counter as a decimal string, then [++]. *)
Definition GetNextID (s : Store) (entityType : string) : string * Store :=
  let id := default 0 (NextID s !! entityType) in
  (Itoa id, set_NextID s (<[entityType := int_add id 1]> (NextID s))).

Definition ValidatePrintJobStatusTransition (currentStatus newStatus : string)
  : option error :=
  if decide (currentStatus = Queued) then
    if decide (newStatus ≠ Running ∧ newStatus ≠ Canceled)
    then Some "queued jobs can only transition to running or canceled"
    else None
  else if decide (currentStatus = Running) then
    if decide (newStatus ≠ Done ∧ newStatus ≠ Canceled)
    then Some "running jobs can only transition to done or canceled"
    else None
  else if decide (currentStatus = Done ∨ currentStatus = Canceled) then
    Some "jobs in done or canceled state cannot transition to any other state"
  else Some ("unknown status: " +:+ currentStatus).

(** The body of the loop of [CheckFilamentAvailability]. *)
Definition addJobWeight (filamentID : string) (job : PrintJob) (acc : Z) : Z :=
  if decide (FilamentID job = filamentID
             ∧ (PrintJob_Status job = Queued ∨ PrintJob_Status job = Running))
  then int_add acc (PrintWeightInGrams job)
  else acc.

Definition weightUsedByOtherJobs (s : Store) (filamentID : string) : Z :=
  map_fold (λ _ job acc, addJobWeight filamentID job acc) 0 (PrintJobs s).

Definition CheckFilamentAvailability (s : Store) (filamentID : string)
    (printWeight : Z) : option error :=
  match Filaments s !! filamentID with
  | None => Some ("filament with ID " +:+ filamentID +:+ " does not exist")
  | Some filament =>
      let remainingWeight :=
        int_sub (RemainingWeightInGrams filament) (weightUsedByOtherJobs s filamentID) in
      if decide (remainingWeight < printWeight)
      then Some ("not enough filament: needs " +:+ pretty printWeight
                 +:+ " grams but only " +:+ pretty remainingWeight
                 +:+ " grams available")
      else None
  end.

#[global] Instance Printer_eq_dec : EqDecision Printer.
Proof. solve_decision. Defined.
#[global] Instance Filament_eq_dec : EqDecision Filament.
Proof. solve_decision. Defined.
#[global] Instance PrintJob_eq_dec : EqDecision PrintJob.
Proof. solve_decision. Defined.
#[global] Instance Store_eq_dec : EqDecision Store.
Proof. solve_decision. Defined.

(** ** The collaborators of the FSM *)

(** [encoding/json], at the types the FSM uses it. *)
Class Json := {
  json_Unmarshal_Command : bytes → error + Command;
  json_Unmarshal_Printer : bytes → error + Printer;
  json_Unmarshal_Filament : bytes → error + Filament;
  json_Unmarshal_PrintJob : bytes → error + PrintJob;
  json_Unmarshal_Store : bytes → error + Store;
  json_Marshal_Store : Store → error + bytes
}.

(** The host clock: the readings the successive calls of [time.Now()]
    return. *)
Definition Clock := nat → Time.

Definition time_Now (c : Clock) : Time * Clock := (c O, λ n, c (S n)).

(** What [Apply] hands back to the consensus layer ([interface{}]). *)
Inductive Response :=
| RespError (e : error)
| RespPrinter (p : Printer)
| RespFilament (f : Filament)
| RespPrintJob (j : PrintJob).

Definition is_error (r : Response) : bool :=
  match r with RespError _ => true | _ => false end.

(** [raft.SnapshotSink]: the bytes written so far, whether the backing
    medium still accepts writes, and how the sink was left. *)
Inductive SinkState := SinkOpen | SinkClosed | SinkCanceled.

Record SnapshotSink := mkSink {
  sink_data : bytes;
  sink_writable : bool;
  sink_state : SinkState
}.

Definition sink_Write (k : SnapshotSink) (data : bytes) : option error * SnapshotSink :=
  if sink_writable k
  then (None, mkSink (sink_data k ++ data) true (sink_state k))
  else (Some "write failed", k).

Definition sink_Cancel (k : SnapshotSink) : SnapshotSink :=
  mkSink [] (sink_writable k) SinkCanceled.

Definition sink_Close (k : SnapshotSink) : option error * SnapshotSink :=
  (None, mkSink (sink_data k) (sink_writable k) SinkClosed).

Definition newSink : SnapshotSink := mkSink [] true SinkOpen.

(** ** store/fsm.go *)

Section FSM.
Context `{J : Json}.

Definition applyCreatePrinter (s : Store) (data : bytes) : Response * Store :=
  match json_Unmarshal_Printer data with
  | inl err => (RespError err, s)
  | inr printer =>
      let '(printer, s) :=
        if decide (Printer_ID printer = "") then
          let '(id, s) := GetNextID s "printer" in
          (mkPrinter id (Company printer) (Model printer), s)
        else (printer, s) in
      (RespPrinter printer,
       set_Printers s (<[Printer_ID printer := printer]> (Printers s)))
  end.

Definition applyCreateFilament (s : Store) (data : bytes) : Response * Store :=
  match json_Unmarshal_Filament data with
  | inl err => (RespError err, s)
  | inr filament =>
      let '(filament, s) :=
        if decide (Filament_ID filament = "") then
          let '(id, s) := GetNextID s "filament" in
          (mkFilament id (Filament_Type filament) (Color filament)
             (TotalWeightInGrams filament) (RemainingWeightInGrams filament), s)
        else (filament, s) in
      let filament :=
        if decide (RemainingWeightInGrams filament = 0) then
          mkFilament (Filament_ID filament) (Filament_Type filament) (Color filament)
            (TotalWeightInGrams filament) (TotalWeightInGrams filament)
        else filament in
      (RespFilament filament,
       set_Filaments s (<[Filament_ID filament := filament]> (Filaments s)))
  end.

Definition applyCreatePrintJob (s : Store) (clk : Clock) (data : bytes)
  : Response * Store * Clock :=
  match json_Unmarshal_PrintJob data with
  | inl err => (RespError err, s, clk)
  | inr printJob =>
      match Printers s !! PrinterID printJob with
      | None =>
          (RespError ("printer with ID " +:+ PrinterID printJob +:+ " does not exist"),
           s, clk)
      | Some _ =>
          match Filaments s !! FilamentID printJob with
          | None =>
              (RespError ("filament with ID " +:+ FilamentID printJob
                          +:+ " does not exist"), s, clk)
          | Some _ =>
              match CheckFilamentAvailability s (FilamentID printJob)
                      (PrintWeightInGrams printJob) with
              | Some err => (RespError err, s, clk)
              | None =>
                  let '(id, s) :=
                    if decide (PrintJob_ID printJob = "")
                    then GetNextID s "printjob"
                    else (PrintJob_ID printJob, s) in
                  let '(createdAt, clk) := time_Now clk in
                  let '(updatedAt, clk) := time_Now clk in
                  let printJob :=
                    mkPrintJob id (PrinterID printJob) (FilamentID printJob)
                      (Filepath printJob) (PrintWeightInGrams printJob)
                      Queued createdAt updatedAt in
                  (RespPrintJob printJob,
                   set_PrintJobs s (<[id := printJob]> (PrintJobs s)), clk)
              end
          end
      end
  end.

Definition applyUpdatePrintJob (s : Store) (clk : Clock) (id status : string)
  : Response * Store * Clock :=
  match PrintJobs s !! id with
  | None => (RespError ("print job with ID " +:+ id +:+ " does not exist"), s, clk)
  | Some printJob =>
      let newStatus := status in
      match ValidatePrintJobStatusTransition (PrintJob_Status printJob) newStatus with
      | Some err => (RespError err, s, clk)
      | None =>
          let '(now, clk) := time_Now clk in
          let printJob :=
            mkPrintJob (PrintJob_ID printJob) (PrinterID printJob)
              (FilamentID printJob) (Filepath printJob)
              (PrintWeightInGrams printJob) newStatus (CreatedAt printJob) now in
          let s :=
            if decide (newStatus = Done) then
              let filament := default zeroFilament (Filaments s !! FilamentID printJob) in
              let remaining :=
                int_sub (RemainingWeightInGrams filament) (PrintWeightInGrams printJob) in
              let remaining := if decide (remaining < 0) then 0 else remaining in
              let filament :=
                mkFilament (Filament_ID filament) (Filament_Type filament)
                  (Color filament) (TotalWeightInGrams filament) remaining in
              set_Filaments s (<[FilamentID printJob := filament]> (Filaments s))
            else s in
          (RespPrintJob printJob,
           set_PrintJobs s (<[id := printJob]> (PrintJobs s)), clk)
      end
  end.

(** [FSM.Apply]: [data] is [log.Data]. *)
Definition Apply (s : Store) (clk : Clock) (data : bytes) : Response * Store * Clock :=
  match json_Unmarshal_Command data with
  | inl err => (RespError ("failed to unmarshal command: " +:+ err), s, clk)
  | inr cmd =>
      if decide (Cmd_Type cmd = CreatePrinter) then
        let '(r, s) := applyCreatePrinter s (Cmd_Data cmd) in (r, s, clk)
      else if decide (Cmd_Type cmd = CreateFilament) then
        let '(r, s) := applyCreateFilament s (Cmd_Data cmd) in (r, s, clk)
      else if decide (Cmd_Type cmd = CreatePrintJob) then
        applyCreatePrintJob s clk (Cmd_Data cmd)
      else if decide (Cmd_Type cmd = UpdatePrintJob) then
        applyUpdatePrintJob s clk (Cmd_ID cmd) (Cmd_Status cmd)
      else (RespError ("unknown command type: " +:+ Cmd_Type cmd), s, clk)
  end.

(** [FSM.Snapshot]: each of the four loops copies a map entry by entry
    into a fresh map. *)
Definition cloneMap {A} (m : gmap string A) : gmap string A :=
  map_fold (λ k v snapshot, <[k := v]> snapshot) ∅ m.

Record fsmSnapshot := mkSnapshot { snap_store : Store }.

Definition Snapshot (s : Store) : fsmSnapshot * option error :=
  (mkSnapshot (mkStore (cloneMap (Printers s)) (cloneMap (Filaments s))
                 (cloneMap (PrintJobs s)) (cloneMap (NextID s))),
   None).

(** [fsmSnapshot.Persist] *)
Definition Persist (snap : fsmSnapshot) (sink : SnapshotSink)
  : option error * SnapshotSink :=
  match json_Marshal_Store (snap_store snap) with
  | inl err => (Some err, sink_Cancel sink)
  | inr data =>
      match sink_Write sink data with
      | (Some err, sink) => (Some err, sink_Cancel sink)
      | (None, sink) => sink_Close sink
      end
  end.

(** [FSM.Restore]: [rc] is what [io.ReadAll] gets out of the reader. *)
Definition Restore (s : Store) (rc : error + bytes) : option error * Store :=
  match rc with
  | inl err => (Some err, s)
  | inr data =>
      match json_Unmarshal_Store data with
      | inl err => (Some err, s)
      | inr store => (None, store)
      end
  end.

(** The log applied entry by entry, in log order. *)
Fixpoint applyLog (s : Store) (clk : Clock) (entries : list bytes)
  : list Response * Store * Clock :=
  match entries with
  | [] => ([], s, clk)
  | data :: entries =>
      let '(r, s, clk) := Apply s clk data in
      let '(rs, s, clk) := applyLog s clk entries in
      (r :: rs, s, clk)
  end.

End FSM.

(** ** The vocabulary of the specification *)

(** The transition table δ of the specification: the four permitted
    cells. *)
Definition delta (current proposed : string) : bool :=
  bool_decide ((current = Queued ∧ proposed = Running)
               ∨ (current = Queued ∧ proposed = Canceled)
               ∨ (current = Running ∧ proposed = Done)
               ∨ (current = Running ∧ proposed = Canceled)).

(** An active job: status Queued or Running. *)
Definition active (job : PrintJob) : Prop :=
  PrintJob_Status job = Queued ∨ PrintJob_Status job = Running.

(** What a job reserves on filament [fid]: its weight when it is an
    active job on that filament, nothing otherwise. *)
Definition reserved (fid : string) (job : PrintJob) : Z :=
  if decide (FilamentID job = fid ∧ active job) then PrintWeightInGrams job else 0.

(** Σ of [print_weight_g] over the active jobs on [fid], a sum of
    mathematical integers. *)
Definition reservedIn (jobs : gmap string PrintJob) (fid : string) : Z :=
  map_fold (λ _ job acc, reserved fid job + acc) 0 jobs.

Definition activeWeight (s : Store) (fid : string) : Z :=
  reservedIn (PrintJobs s) fid.

(** available(F) = F.remaining_weight_g − Σ active jobs on F. *)
Definition available (s : Store) (fid : string) (F : Filament) : Z :=
  RemainingWeightInGrams F - activeWeight s fid.

(** I3 and P2: [0 ≤ remaining ≤ total] for every filament. *)
Definition weightsBounded (s : Store) : Prop :=
  ∀ fid F, Filaments s !! fid = Some F →
    0 ≤ RemainingWeightInGrams F ≤ TotalWeightInGrams F.

(** I4, the filament budget. *)
Definition budgetRespected (s : Store) : Prop :=
  ∀ fid F, Filaments s !! fid = Some F →
    activeWeight s fid ≤ RemainingWeightInGrams F.

(** ** Guards and invariants along the log *)

Section Guards.
Context `{J : Json}.

(** What the payloads of an entry must satisfy for the invariants below:
    [okFilament] on the filament of a CreateFilament, and a print weight
    between 0 and the largest [int] on the job of a CreatePrintJob.  The
    FSM checks neither. *)
Definition payloads (okFilament : Filament → Prop) (data : bytes) : Prop :=
  ∀ cmd, json_Unmarshal_Command data = inr cmd →
    (Cmd_Type cmd = CreateFilament →
     ∀ f, json_Unmarshal_Filament (Cmd_Data cmd) = inr f → okFilament f)
    ∧ (Cmd_Type cmd = CreatePrintJob →
       ∀ pj, json_Unmarshal_PrintJob (Cmd_Data cmd) = inr pj →
         0 ≤ PrintWeightInGrams pj ≤ int_max).

(** The id a CreateFilament entry will be stored under is not taken. *)
Definition freshFilament (s : Store) (data : bytes) : Prop :=
  ∀ cmd f, json_Unmarshal_Command data = inr cmd → Cmd_Type cmd = CreateFilament →
    json_Unmarshal_Filament (Cmd_Data cmd) = inr f →
    Filaments s
      !! (if decide (Filament_ID f = "")
          then Itoa (default 0 (NextID s !! "filament")) else Filament_ID f) = None.

(** [ok] holds of every entry of the log at the store it is applied to. *)
Fixpoint guardedLog (ok : Store → bytes → Prop) (s : Store) (clk : Clock)
    (entries : list bytes) : Prop :=
  match entries with
  | [] => True
  | data :: entries =>
      ok s data ∧ guardedLog ok (Apply s clk data).1.2 (Apply s clk data).2 entries
  end.

End Guards.

(** Every stored job has a print weight between 0 and the largest [int]. *)
Definition weightsOfJobsInRange (s : Store) : Prop :=
  ∀ id job, PrintJobs s !! id = Some job → 0 ≤ PrintWeightInGrams job ≤ int_max.

(** A filament with 0 ≤ remaining ≤ total, the total an [int]. *)
Definition boundedFilament (f : Filament) : Prop :=
  0 ≤ RemainingWeightInGrams f ≤ TotalWeightInGrams f ∧ TotalWeightInGrams f ≤ int_max.

(** The inductive invariant behind P2. *)
Definition boundedStore (s : Store) : Prop :=
  weightsOfJobsInRange s
  ∧ ∀ fid F, Filaments s !! fid = Some F → boundedFilament F.

(** A filament whose two weights are non-negative [int]s. *)
Definition rangedFilament (f : Filament) : Prop :=
  0 ≤ TotalWeightInGrams f ≤ int_max ∧ 0 ≤ RemainingWeightInGrams f ≤ int_max.

(** The inductive invariant behind P1: the filament of every job exists
    (I2), the weights are non-negative [int]s, and the budget holds (I4). *)
Definition budgetStore (s : Store) : Prop :=
  (∀ id job, PrintJobs s !! id = Some job → is_Some (Filaments s !! FilamentID job))
  ∧ weightsOfJobsInRange s
  ∧ (∀ fid F, Filaments s !! fid = Some F → 0 ≤ RemainingWeightInGrams F ≤ int_max)
  ∧ budgetRespected s.

(** What P1 needs of an entry: payloads with non-negative weights, and
    no CreateFilament on top of an existing filament. *)
Definition budgetGuard `{J : Json} (s : Store) (data : bytes) : Prop :=
  payloads rangedFilament data ∧ freshFilament s data.

(** ** A finite JSON vocabulary

    The closed examples below run the FSM on concrete log entries.  The
    entries are JSON texts; [tableJson] decodes exactly the texts of a
    given finite vocabulary, each to the value [encoding/json] decodes it
    to, and rejects every other input. *)
Module Demo.

Definition dq : string :=
  String (Ascii.Ascii false true false false false true false false) "".

Definition jstr (s : string) : string := dq +:+ s +:+ dq.
Definition jfield (k v : string) : string := jstr k +:+ ":" +:+ v.
Definition jobj (fields : list string) : string :=
  "{" +:+ String.concat "," fields +:+ "}".

Definition text (s : string) : bytes := String.list_byte_of_string s.

Definition encodePrinter (p : Printer) : string :=
  jobj [jfield "id" (jstr (Printer_ID p));
        jfield "company" (jstr (Company p));
        jfield "model" (jstr (Model p))].

Definition encodeFilament (f : Filament) : string :=
  jobj [jfield "id" (jstr (Filament_ID f));
        jfield "type" (jstr (Filament_Type f));
        jfield "color" (jstr (Color f));
        jfield "total_weight_in_grams" (pretty (TotalWeightInGrams f));
        jfield "remaining_weight_in_grams" (pretty (RemainingWeightInGrams f))].

(** A client's job carries no timestamps: both are the zero [time.Time]. *)
Definition zeroTime : Time := -62135596800000000000.

Definition encodePrintJob (j : PrintJob) : string :=
  jobj [jfield "id" (jstr (PrintJob_ID j));
        jfield "printer_id" (jstr (PrinterID j));
        jfield "filament_id" (jstr (FilamentID j));
        jfield "filepath" (jstr (Filepath j));
        jfield "print_weight_in_grams" (pretty (PrintWeightInGrams j));
        jfield "status" (jstr (PrintJob_Status j));
        jfield "created_at" (jstr "0001-01-01T00:00:00Z");
        jfield "updated_at" (jstr "0001-01-01T00:00:00Z")].

Definition encodeCommand (c : Command) : string :=
  jobj ([jfield "type" (jstr (Cmd_Type c));
         jfield "data" (match Cmd_Data c with
                        | [] => "null"
                        | d => String.string_of_list_byte d
                        end)]
        ++ (if decide (Cmd_ID c = "") then [] else [jfield "id" (jstr (Cmd_ID c))])
        ++ (if decide (Cmd_Status c = "") then []
            else [jfield "status" (jstr (Cmd_Status c))])).

Definition encodeMap {A} (enc : A → string) (m : gmap string A) : string :=
  jobj ((λ kv, jfield kv.1 (enc kv.2)) <$> map_to_list m).

(** Only stores without print jobs are written by this encoder. *)
Definition encodeStore (s : Store) : string :=
  jobj [jfield "printers" (encodeMap encodePrinter (Printers s));
        jfield "filaments" (encodeMap encodeFilament (Filaments s));
        jfield "print_jobs" (encodeMap encodePrintJob (PrintJobs s));
        jfield "next_id" (encodeMap pretty (NextID s))].

Definition decodeWith {A} (enc : A → string) (vocabulary : list A) (data : bytes)
  : error + A :=
  match List.find (λ v, String.eqb (enc v) (String.string_of_list_byte data)) vocabulary with
  | Some v => inr v
  | None => inl "invalid character looking for beginning of value"
  end.

Definition marshalWith {A} `{EqDecision A} (enc : A → string) (vocabulary : list A)
    (v : A) : error + bytes :=
  if decide (v ∈ vocabulary) then inr (text (enc v))
  else inl "json: unsupported value".

Definition tableJson (commands : list Command) (printers : list Printer)
    (filaments : list Filament) (jobs : list PrintJob) (stores : list Store) : Json :=
  {| json_Unmarshal_Command := decodeWith encodeCommand commands;
     json_Unmarshal_Printer := decodeWith encodePrinter printers;
     json_Unmarshal_Filament := decodeWith encodeFilament filaments;
     json_Unmarshal_PrintJob := decodeWith encodePrintJob jobs;
     json_Unmarshal_Store := decodeWith encodeStore stores;
     json_Marshal_Store := marshalWith encodeStore stores |}.

Definition cmd (type : string) (payload : string) : Command :=
  mkCommand type (text payload) "" "".

Definition update (id status : string) : Command :=
  mkCommand UpdatePrintJob [] id status.

Definition entry (c : Command) : bytes := text (encodeCommand c).

Definition clock : Clock := λ n, 1700000000000000000 + Z.of_nat n.

(** The entities of the examples. *)
Definition ender : Printer := mkPrinter "p1" "Creality" "Ender 3".
Definition prusa : Printer := mkPrinter "p1" "Prusa" "MK4".
Definition pla100 : Filament := mkFilament "f1" "PLA" "red" 100 0.
Definition pla10 : Filament := mkFilament "f1" "PLA" "red" 10 0.
Definition pla10of50 : Filament := mkFilament "f1" "PLA" "red" 10 50.
Definition plaMax : Filament := mkFilament "f1" "PLA" "red" int_max 0.
Definition plaOwed : Filament := mkFilament "f1" "PLA" "red" 100 (-5).
Definition job (id : string) (weight : Z) : PrintJob :=
  mkPrintJob id "p1" "f1" "benchy.gcode" weight "" zeroTime zeroTime.

(** A store whose only filament owes five grams: no command produced it,
    it is what a snapshot file with that content decodes to. *)
Definition owingStore : Store :=
  mkStore ∅ (<["f1" := plaOwed]> ∅) ∅ (NextID NewStore).

Definition shopStore : Store :=
  mkStore (<["p1" := ender]> ∅) (<["f1" := mkFilament "f1" "PLA" "red" 100 100]> ∅) ∅
    (NextID NewStore).

Definition createPrinter (p : Printer) : Command := cmd CreatePrinter (encodePrinter p).
Definition createFilament (f : Filament) : Command := cmd CreateFilament (encodeFilament f).
Definition createPrintJob (j : PrintJob) : Command := cmd CreatePrintJob (encodePrintJob j).

Definition printers : list Printer := [ender; prusa].
Definition filaments : list Filament := [pla100; pla10; pla10of50; plaMax].
Definition jobs : list PrintJob := [job "j1" 60; job "j2" 50; job "j1" (-1); job "j2" 1].
Definition commands : list Command :=
  (createPrinter <$> printers) ++ (createFilament <$> filaments)
  ++ (createPrintJob <$> jobs)
  ++ [update "j1" Running; update "j1" Done; update "j1" Canceled;
      update "j1" Queued; update "j9" Running; cmd "DELETE_PRINTER" "{}"].

#[global] Instance json : Json :=
  tableJson commands printers filaments jobs [NewStore; owingStore; shopStore].

End Demo.

(** ** Shapes of a store that the FSM keeps *)

(** I1 and I2: the printer and the filament of every job are in the store. *)
Definition referencesResolve (s : Store) : Prop :=
  ∀ id job, PrintJobs s !! id = Some job →
    is_Some (Printers s !! PrinterID job) ∧ is_Some (Filaments s !! FilamentID job).

(** Every entity sits under its own id. *)
Definition keyedByID (s : Store) : Prop :=
  (∀ k p, Printers s !! k = Some p → Printer_ID p = k)
  ∧ (∀ k f, Filaments s !! k = Some f → Filament_ID f = k)
  ∧ (∀ k job, PrintJobs s !! k = Some job → PrintJob_ID job = k).

(** Every job is in one of the four statuses. *)
Definition statusesKnown (s : Store) : Prop :=
  ∀ id job, PrintJobs s !! id = Some job →
    PrintJob_Status job ∈ [Queued; Running; Done; Canceled].

(** ** store/raft.go: the consensus adapter

    [RaftServer] wraps a [*raft.Raft].  What the library answers to the
    calls the adapter makes is a [RaftNode]: whether [State()] is
    [raft.Leader], the outcome of [GetConfiguration()], of [AddVoter] and
    of [Apply] (the error of the future, or the response of the FSM). *)

Record Server := mkServer {
  Server_ID : string;
  Server_Address : string
}.

Record RaftNode := mkRaftNode {
  node_isLeader : bool;
  node_GetConfiguration : error + list Server;
  node_AddVoter : string → string → option error;
  node_Apply : bytes → error + Response
}.

(** The loop of [Join]: [true] when it returns nil from inside the loop. *)
Fixpoint alreadyJoined (servers : list Server) (nodeID addr : string) : bool :=
  match servers with
  | [] => false
  | srv :: servers =>
      if decide (Server_ID srv = nodeID ∨ Server_Address srv = addr) then true
      else alreadyJoined servers nodeID addr
  end.

(** [RaftServer.Join] *)
Definition Join (n : RaftNode) (nodeID addr : string) : option error :=
  match node_GetConfiguration n with
  | inl err => Some err
  | inr servers =>
      if alreadyJoined servers nodeID addr then None
      else match node_AddVoter n nodeID addr with
           | Some err => Some err
           | None => None
           end
  end.

(** [RaftServer.ApplyCommand]; [marshal] is [json.Marshal] on a [Command].
    The two components are the [interface{}] and the [error] returned. *)
Definition ApplyCommand (marshal : Command → error + bytes) (n : RaftNode)
    (cmd : Command) : option Response * option error :=
  if negb (node_isLeader n) then (None, Some "not the leader")
  else match marshal cmd with
       | inl err => (None, Some err)
       | inr data =>
           match node_Apply n data with
           | inl err => (None, Some err)
           | inr (RespError err) => (None, Some err)
           | inr response => (Some response, None)
           end
       end.

(** ** api/handlers.go: the read side

    The loop of [Handler.GetPrintJobs] over [store.PrintJobs], appending
    the jobs that pass the [status] query parameter. *)
Definition GetPrintJobs (s : Store) (status : string) : list PrintJob :=
  map_fold (λ _ job printJobs,
              if decide (status = "" ∨ PrintJob_Status job = status)
              then printJobs ++ [job] else printJobs)
    [] (PrintJobs s).

(** ** raft3d/raft/fsm.go and raft3d/api/models.go: the key-value variant *)
Module KV.

Record Command := mkCommand {
  Op : string;
  Key : string;
  Value : string
}.

(** [FSM.Apply]; [unmarshal] is [json.Unmarshal] on a [Command], the
    state is [f.data], the result is nil or an error. *)
Definition Apply (unmarshal : bytes → error + Command) (data : gmap string string)
    (log : bytes) : option error * gmap string string :=
  match unmarshal log with
  | inl err => (Some ("failed to unmarshal command: " +:+ err), data)
  | inr cmd =>
      if decide (Op cmd = "set") then (None, <[Key cmd := Value cmd]> data)
      else if decide (Op cmd = "delete") then (None, delete (Key cmd) data)
      else (Some ("unknown command operation: " +:+ Op cmd), data)
  end.

(** [FSM.Get] *)
Definition Get (data : gmap string string) (key : string) : string * option error :=
  match data !! key with
  | Some value => (value, None)
  | None => ("", Some ("key not found: " +:+ key))
  end.

(** [FSM.List]: the keys are appended as the range meets them. *)
Definition List (data : gmap string string) (prefix : string)
  : list string * option error :=
  (map_fold (λ k _ keys, if String.prefix prefix k then keys ++ [k] else keys)
     [] data,
   None).

(** [ValidatePrintJobStatusTransition] of raft3d/api/models.go, on plain
    strings. *)
Definition ValidatePrintJobStatusTransition (currentStatus newStatus : string)
  : option error :=
  let invalid :=
    Some ("invalid status transition: cannot change from " +:+ currentStatus
          +:+ " to " +:+ newStatus) in
  if decide (currentStatus = "Queued") then
    if decide (newStatus = "Running" ∨ newStatus = "Canceled") then None else invalid
  else if decide (currentStatus = "Running") then
    if decide (newStatus = "Done" ∨ newStatus = "Canceled") then None else invalid
  else Some "invalid status transition: job is already in a terminal state".

End KV.

(** ** More entities for the examples *)
Module Cases.

(** A store as a snapshot can leave it: job [j1] is running on a filament
    the store does not hold. *)
Definition danglingStore : Store :=
  mkStore (<["p1" := Demo.ender]> ∅) ∅
    (<["j1" := mkPrintJob "j1" "p1" "f9" "benchy.gcode" 60 Running 5 6]> ∅)
    (NextID NewStore).

(** Three jobs on two filaments, in three different statuses. *)
Definition busyStore : Store :=
  mkStore (<["p1" := Demo.ender]> ∅)
    (<["f1" := mkFilament "f1" "PLA" "red" 100 100]>
       (<["f2" := mkFilament "f2" "ABS" "black" 500 500]> ∅))
    (<["j1" := mkPrintJob "j1" "p1" "f1" "a.gcode" 60 Queued 1 1]>
       (<["j2" := mkPrintJob "j2" "p1" "f2" "b.gcode" 70 Running 2 3]>
          (<["j3" := mkPrintJob "j3" "p1" "f1" "c.gcode" 30 Done 4 5]> ∅)))
    (NextID NewStore).

Definition cluster : list Server :=
  [mkServer "node1" "127.0.0.1:9001"; mkServer "node2" "127.0.0.1:9002"].

(** A leader whose configuration is [cluster], on which [AddVoter] times
    out and [Apply] answers what the FSM answers on [Demo.shopStore]. *)
Definition leader : RaftNode :=
  mkRaftNode true (inr cluster) (λ _ _, Some "timed out enqueuing operation")
    (λ data, inr (Apply Demo.shopStore Demo.clock data).1.1).

Definition follower : RaftNode :=
  mkRaftNode false (inr cluster) (λ _ _, None) (λ _, inl "node is not the leader").

Definition marshalCommand (c : Command) : error + bytes := inr (Demo.entry c).

(** The key-value entries of the examples: the texts are the command
    itself, field by field. *)
Definition kvText (c : KV.Command) : string :=
  Demo.jobj [Demo.jfield "op" (Demo.jstr (KV.Op c));
             Demo.jfield "key" (Demo.jstr (KV.Key c));
             Demo.jfield "value" (Demo.jstr (KV.Value c))].

Definition kvEntry (c : KV.Command) : bytes := Demo.text (kvText c).

Definition kvCommands : list KV.Command :=
  [KV.mkCommand "set" "printer_p1" "ender"; KV.mkCommand "delete" "printer_p1" "";
   KV.mkCommand "rename" "printer_p1" "x"].

Definition kvUnmarshal : bytes → error + KV.Command :=
  Demo.decodeWith kvText kvCommands.

Definition kvData : gmap string string :=
  <["printer_p1" := "ender"]> (<["printer_p2" := "prusa"]>
    (<["filament_f1" := "pla"]> ∅)).

End Cases.

(** Discharges [payloads] on an entry of the example vocabulary by
    running the decoder. *)
Ltac payloads_by_decoding :=
  let cmd := fresh "cmd" in
  let Hd := fresh "Hd" in
  let Hty := fresh "Hty" in
  let Hf := fresh "Hf" in
  intros cmd Hd; vm_compute in Hd; injection Hd as <-;
  split; intros Hty; try discriminate Hty;
  intros ? Hf; vm_compute in Hf; injection Hf as <-;
  vm_compute; intuition discriminate.

(** Discharges [freshFilament] on an entry of the example vocabulary by
    running the decoder and looking the id up. *)
Ltac freshFilament_by_decoding :=
  let cmd := fresh "cmd" in
  let Hd := fresh "Hd" in
  let Hty := fresh "Hty" in
  let Hf := fresh "Hf" in
  intros cmd ? Hd Hty Hf; vm_compute in Hd; injection Hd as <-;
  try discriminate Hty;
  vm_compute in Hf; injection Hf as <-; by vm_compute.

(** ** Machine arithmetic *)

Lemma wrap_in_int z : in_int z → wrap z = z.
Proof.
  unfold in_int, int_min, int_max, wrap. intros Hz.
  rewrite Z.mod_small; lia.
Qed.

Lemma wrap_range z : in_int (wrap z).
Proof.
  unfold in_int, int_min, int_max, wrap.
  pose proof (Z.mod_pos_bound (z + 2 ^ 63) (2 ^ 64)). lia.
Qed.

Lemma wrap_add_l a b : wrap (wrap a + b) = wrap (a + b).
Proof.
  unfold wrap. f_equal.
  replace ((a + 2 ^ 63) `mod` 2 ^ 64 - 2 ^ 63 + b + 2 ^ 63)
    with ((a + 2 ^ 63) `mod` 2 ^ 64 + b) by lia.
  rewrite Zplus_mod_idemp_l. f_equal. lia.
Qed.

Lemma wrap_sub_r a b : wrap (a - wrap b) = wrap (a - b).
Proof.
  unfold wrap. f_equal.
  assert (2 ^ 64 = 2 * 2 ^ 63) as Hp by done.
  replace (a - ((b + 2 ^ 63) `mod` 2 ^ 64 - 2 ^ 63) + 2 ^ 63)
    with (a + 2 ^ 64 - (b + 2 ^ 63) `mod` 2 ^ 64) by lia.
  rewrite Zminus_mod_idemp_r.
  f_equal. lia.
Qed.

(** ** Dispatch *)

Section Dispatch.
Context `{J : Json}.

Lemma Apply_CreatePrinter s clk data cmd :
  json_Unmarshal_Command data = inr cmd → Cmd_Type cmd = CreatePrinter →
  Apply s clk data =
    (let '(r, s') := applyCreatePrinter s (Cmd_Data cmd) in (r, s', clk)).
Proof. intros Hd Ht. unfold Apply. rewrite Hd, Ht. done. Qed.

Lemma Apply_CreateFilament s clk data cmd :
  json_Unmarshal_Command data = inr cmd → Cmd_Type cmd = CreateFilament →
  Apply s clk data =
    (let '(r, s') := applyCreateFilament s (Cmd_Data cmd) in (r, s', clk)).
Proof. intros Hd Ht. unfold Apply. rewrite Hd, Ht. done. Qed.

Lemma Apply_CreatePrintJob s clk data cmd :
  json_Unmarshal_Command data = inr cmd → Cmd_Type cmd = CreatePrintJob →
  Apply s clk data = applyCreatePrintJob s clk (Cmd_Data cmd).
Proof. intros Hd Ht. unfold Apply. rewrite Hd, Ht. done. Qed.

Lemma Apply_UpdatePrintJob s clk data cmd :
  json_Unmarshal_Command data = inr cmd → Cmd_Type cmd = UpdatePrintJob →
  Apply s clk data = applyUpdatePrintJob s clk (Cmd_ID cmd) (Cmd_Status cmd).
Proof. intros Hd Ht. unfold Apply. rewrite Hd, Ht. done. Qed.

End Dispatch.

(** ** The status-transition validator *)

Lemma ValidatePrintJobStatusTransition_delta current proposed :
  ValidatePrintJobStatusTransition current proposed = None
  ↔ delta current proposed = true.
Proof.
  unfold ValidatePrintJobStatusTransition, delta.
  rewrite bool_decide_eq_true.
  destruct (decide (proposed = Running)), (decide (proposed = Canceled)),
    (decide (proposed = Done));
    repeat (match goal with |- context [decide ?P] => destruct (decide P) end);
    subst; unfold Queued, Running, Done, Canceled in *;
    intuition (try discriminate; try congruence).
Qed.

Lemma delta_terminal current proposed :
  current = Done ∨ current = Canceled → delta current proposed = false.
Proof.
  intros Hc. unfold delta. rewrite bool_decide_eq_false.
  unfold Queued, Running, Done, Canceled in *.
  intuition (subst; try discriminate; try congruence).
Qed.

(** ** UpdatePrintJob *)

Section UpdatePrintJob.
Context `{J : Json}.

(** The outcome of [applyUpdatePrintJob] on a job the store holds, by
    the cell of δ. *)
Lemma applyUpdatePrintJob_found s clk id status job :
  PrintJobs s !! id = Some job →
  applyUpdatePrintJob s clk id status =
    match ValidatePrintJobStatusTransition (PrintJob_Status job) status with
    | Some err => (RespError err, s, clk)
    | None =>
        let job' :=
          mkPrintJob (PrintJob_ID job) (PrinterID job) (FilamentID job) (Filepath job)
            (PrintWeightInGrams job) status (CreatedAt job) (clk O) in
        let s1 :=
          if decide (status = Done) then
            let F := default zeroFilament (Filaments s !! FilamentID job) in
            let rem := int_sub (RemainingWeightInGrams F) (PrintWeightInGrams job) in
            set_Filaments s
              (<[FilamentID job :=
                   mkFilament (Filament_ID F) (Filament_Type F) (Color F)
                     (TotalWeightInGrams F) (if decide (rem < 0) then 0 else rem)]>
                 (Filaments s))
          else s in
        (RespPrintJob job', set_PrintJobs s1 (<[id := job']> (PrintJobs s1)),
         λ n, clk (S n))
    end.
Proof.
  intros Hjob. unfold applyUpdatePrintJob. rewrite Hjob.
  destruct (ValidatePrintJobStatusTransition _ _); [done|].
  simpl. by destruct (decide (status = Done)).
Qed.

Lemma applyUpdatePrintJob_missing s clk id status :
  PrintJobs s !! id = None →
  applyUpdatePrintJob s clk id status =
    (RespError ("print job with ID " +:+ id +:+ " does not exist"), s, clk).
Proof. intros Hjob. unfold applyUpdatePrintJob. by rewrite Hjob. Qed.

(** A successful update rewrites the job map at the command's id only. *)
Lemma applyUpdatePrintJob_other s clk id status r s' clk' k :
  applyUpdatePrintJob s clk id status = (r, s', clk') →
  k ≠ id → PrintJobs s' !! k = PrintJobs s !! k.
Proof.
  intros Happ Hk. destruct (PrintJobs s !! id) as [job|] eqn:Hjob.
  - rewrite (applyUpdatePrintJob_found _ _ _ _ _ Hjob) in Happ.
    cbv zeta in Happ.
    destruct (ValidatePrintJobStatusTransition _ _); simplify_eq; [done|].
    simpl. rewrite lookup_insert_ne by done. by destruct (decide (status = Done)).
  - rewrite applyUpdatePrintJob_missing in Happ by done. by simplify_eq.
Qed.

(** Terminal statuses are absorbing under [applyUpdatePrintJob]. *)
Lemma applyUpdatePrintJob_terminal s clk id status r s' clk' k job :
  applyUpdatePrintJob s clk id status = (r, s', clk') →
  PrintJobs s !! k = Some job →
  PrintJob_Status job = Done ∨ PrintJob_Status job = Canceled →
  PrintJobs s' !! k = Some job.
Proof.
  intros Happ Hjob Hterm. destruct (decide (k = id)) as [->|Hne].
  - rewrite (applyUpdatePrintJob_found _ _ _ _ _ Hjob) in Happ.
    destruct (ValidatePrintJobStatusTransition _ _) as [err|] eqn:Hv.
    + by simplify_eq.
    + apply ValidatePrintJobStatusTransition_delta in Hv.
      rewrite (delta_terminal _ _ Hterm) in Hv. discriminate Hv.
  - by rewrite (applyUpdatePrintJob_other _ _ _ _ _ _ _ k Happ).
Qed.

(** Whatever UpdatePrintJob commands follow, a job that is Done or
    Canceled stays exactly as it is. *)
Lemma terminal_job_absorbing entries s clk k job :
  Forall (λ data, ∃ cmd, json_Unmarshal_Command data = inr cmd
                         ∧ Cmd_Type cmd = UpdatePrintJob) entries →
  PrintJobs s !! k = Some job →
  PrintJob_Status job = Done ∨ PrintJob_Status job = Canceled →
  PrintJobs (applyLog s clk entries).1.2 !! k = Some job.
Proof.
  intros Hall. revert s clk.
  induction Hall as [|data entries (cmd & Hd & Hty) _ IH]; intros s clk Hjob Hterm.
  - done.
  - simpl. destruct (Apply s clk data) as [[r s1] clk1] eqn:Happ.
    rewrite (Apply_UpdatePrintJob _ _ _ _ Hd Hty) in Happ.
    pose proof (applyUpdatePrintJob_terminal _ _ _ _ _ _ _ _ _ Happ Hjob Hterm) as Hjob1.
    specialize (IH s1 clk1 Hjob1 Hterm).
    by destruct (applyLog s1 clk1 entries) as [[rs s2] clk2].
Qed.

End UpdatePrintJob.

(** C2. For every job of the store and every UpdatePrintJob command: the
    command aimed at the job succeeds, and leaves the job in the proposed
    status, exactly when (current, proposed) is a cell of δ, i.e. one of
    (Queued, Running), (Queued, Canceled), (Running, Done), (Running,
    Canceled); on every other pair [Apply] answers an error and the store
    is as before.  A job in Done or Canceled is left as it is by every
    UpdatePrintJob command. *)
Theorem UpdatePrintJob_follows_delta `{J : Json} s clk data cmd id job r s' clk' :
  json_Unmarshal_Command data = inr cmd →
  Cmd_Type cmd = UpdatePrintJob →
  PrintJobs s !! id = Some job →
  Apply s clk data = (r, s', clk') →
  (Cmd_ID cmd = id →
     if delta (PrintJob_Status job) (Cmd_Status cmd)
     then ∃ job', r = RespPrintJob job' ∧ PrintJobs s' !! id = Some job'
                  ∧ PrintJob_Status job' = Cmd_Status cmd
     else is_error r = true ∧ s' = s)
  ∧ (PrintJob_Status job = Done ∨ PrintJob_Status job = Canceled →
     PrintJobs s' !! id = Some job).
Proof.
  intros Hdec Hty Hjob Happ.
  rewrite (Apply_UpdatePrintJob _ _ _ _ Hdec Hty) in Happ.
  assert (Cmd_ID cmd = id →
          if delta (PrintJob_Status job) (Cmd_Status cmd)
          then ∃ job', r = RespPrintJob job' ∧ PrintJobs s' !! id = Some job'
                       ∧ PrintJob_Status job' = Cmd_Status cmd
          else is_error r = true ∧ s' = s) as Haimed.
  { intros Heq. rewrite Heq in Happ.
    rewrite (applyUpdatePrintJob_found _ _ _ _ _ Hjob) in Happ.
    cbv zeta in Happ.
    destruct (ValidatePrintJobStatusTransition _ _) as [err|] eqn:Hv.
    - assert (delta (PrintJob_Status job) (Cmd_Status cmd) = false) as ->.
      { apply not_true_is_false. intros Hd.
        apply ValidatePrintJobStatusTransition_delta in Hd. congruence. }
      by simplify_eq.
    - apply ValidatePrintJobStatusTransition_delta in Hv. rewrite Hv.
      simplify_eq. eexists. split; [done|]. simpl.
      by rewrite lookup_insert_eq. }
  split; [done|]. intros Hterm.
  by eapply applyUpdatePrintJob_terminal.
Qed.

Lemma UpdatePrintJob_follows_delta_witness :
  let s := (applyLog NewStore Demo.clock
              (Demo.entry <$> [Demo.createPrinter Demo.ender;
                               Demo.createFilament Demo.pla100;
                               Demo.createPrintJob (Demo.job "j1" 60)])).1.2 in
  ∃ job r s' clk',
    PrintJobs s !! "j1" = Some job
    ∧ Apply s Demo.clock (Demo.entry (Demo.update "j1" Running)) = (r, s', clk')
    ∧ ∃ job', r = RespPrintJob job' ∧ PrintJobs s' !! "j1" = Some job'
              ∧ PrintJob_Status job' = Running.
Proof.
  intros s.
  destruct (Apply s Demo.clock (Demo.entry (Demo.update "j1" Running)))
    as [[r s'] clk'] eqn:Happ.
  destruct (PrintJobs s !! "j1") as [job|] eqn:Hjob; [|by vm_compute in Hjob].
  exists job, r, s', clk'. split; [done|]. split; [done|].
  pose proof (UpdatePrintJob_follows_delta s Demo.clock
                (Demo.entry (Demo.update "j1" Running)) (Demo.update "j1" Running)
                "j1" job r s' clk' eq_refl eq_refl Hjob Happ) as [Haimed _].
  specialize (Haimed eq_refl).
  assert (delta (PrintJob_Status job) Running = true) as Hd.
  { vm_compute in Hjob. by simplify_eq. }
  simpl in Haimed. change (Cmd_Status (Demo.update "j1" Running)) with Running in Haimed.
  by rewrite Hd in Haimed.
Defined.

(** ** Errors leave the store alone *)

Section Errors.
Context `{J : Json}.

Lemma applyCreatePrinter_error s data r s' :
  applyCreatePrinter s data = (r, s') → is_error r = true → s' = s.
Proof.
  unfold applyCreatePrinter. destruct (json_Unmarshal_Printer data) as [err|p].
  - by intros [= <- <-].
  - destruct (decide (Printer_ID p = "")); simpl; by intros [= <- <-].
Qed.

Lemma applyCreateFilament_error s data r s' :
  applyCreateFilament s data = (r, s') → is_error r = true → s' = s.
Proof.
  unfold applyCreateFilament. destruct (json_Unmarshal_Filament data) as [err|f].
  - by intros [= <- <-].
  - destruct (decide (Filament_ID f = "")); simpl; by intros [= <- <-].
Qed.

Lemma applyCreatePrintJob_error s clk data r s' clk' :
  applyCreatePrintJob s clk data = (r, s', clk') → is_error r = true →
  s' = s ∧ clk' = clk.
Proof.
  unfold applyCreatePrintJob.
  destruct (json_Unmarshal_PrintJob data) as [err|pj]; [by intros [= <- <- <-]|].
  destruct (Printers s !! PrinterID pj); [|by intros [= <- <- <-]].
  destruct (Filaments s !! FilamentID pj); [|by intros [= <- <- <-]].
  destruct (CheckFilamentAvailability _ _ _); [by intros [= <- <- <-]|].
  destruct (decide (PrintJob_ID pj = "")); simpl; by intros [= <- <- <-].
Qed.

Lemma applyUpdatePrintJob_error s clk id status r s' clk' :
  applyUpdatePrintJob s clk id status = (r, s', clk') → is_error r = true →
  s' = s ∧ clk' = clk.
Proof.
  unfold applyUpdatePrintJob.
  destruct (PrintJobs s !! id) as [job|]; [|by intros [= <- <- <-]].
  destruct (ValidatePrintJobStatusTransition _ _); [by intros [= <- <- <-]|].
  simpl. by intros [= <- <- <-].
Qed.

End Errors.

(** C10. [Apply] is atomic on error: whenever it answers an error value
    (undecodable entry or payload, unknown command type, unknown printer,
    filament or job, insufficient filament, illegal transition) the store
    after the call is the store before it, id counters included, and the
    host clock has not been read. *)
Theorem Apply_error_leaves_store `{J : Json} s clk data r s' clk' :
  Apply s clk data = (r, s', clk') → is_error r = true → s' = s ∧ clk' = clk.
Proof.
  unfold Apply. destruct (json_Unmarshal_Command data) as [err|cmd].
  { by intros [= <- <- <-]. }
  repeat case_decide.
  - destruct (applyCreatePrinter s (Cmd_Data cmd)) as [r0 s0] eqn:Hp.
    intros [= <- <- <-] He. split; [|done]. by eapply applyCreatePrinter_error.
  - destruct (applyCreateFilament s (Cmd_Data cmd)) as [r0 s0] eqn:Hp.
    intros [= <- <- <-] He. split; [|done]. by eapply applyCreateFilament_error.
  - apply applyCreatePrintJob_error.
  - apply applyUpdatePrintJob_error.
  - by intros [= <- <- <-].
Qed.

Lemma Apply_error_leaves_store_witness :
  let s := (applyLog NewStore Demo.clock
              (Demo.entry <$> [Demo.createPrinter Demo.ender;
                               Demo.createFilament Demo.pla100;
                               Demo.createPrintJob (Demo.job "j1" 60)])).1.2 in
  let data := Demo.entry (Demo.createPrintJob (Demo.job "j2" 50)) in
  is_error (Apply s Demo.clock data).1.1 = true
  ∧ (Apply s Demo.clock data).1.2 = s.
Proof.
  intros s data.
  destruct (Apply s Demo.clock data) as [[r s'] clk'] eqn:Happ.
  assert (is_error r = true) as He.
  { apply (f_equal (λ x, is_error x.1.1)) in Happ. vm_compute in Happ. done. }
  split; [done|].
  exact (proj1 (Apply_error_leaves_store s Demo.clock data r s' clk' Happ He)).
Defined.

(** ** The host clock *)

(** C3. Determinism of [Apply] fails on the code: the same CreatePrintJob
    entry applied to the same store on two hosts whose clocks read
    differently answers different jobs and leaves different stores; the
    [created_at] of the stored job is the local reading of [time.Now()]. *)
Theorem Apply_reads_host_clock :
  let data := Demo.entry (Demo.createPrintJob (Demo.job "j1" 60)) in
  let hostA : Clock := Demo.clock in
  let hostB : Clock := λ n, Demo.clock (n + 7)%nat in
  (Apply Demo.shopStore hostA data).1.1 ≠ (Apply Demo.shopStore hostB data).1.1
  ∧ (Apply Demo.shopStore hostA data).1.2 ≠ (Apply Demo.shopStore hostB data).1.2
  ∧ CreatedAt <$> PrintJobs (Apply Demo.shopStore hostA data).1.2 !! "j1"
    = Some 1700000000000000000
  ∧ CreatedAt <$> PrintJobs (Apply Demo.shopStore hostB data).1.2 !! "j1"
    = Some 1700000000000000007.
Proof.
  intros data hostA hostB.
  assert (CreatedAt <$> PrintJobs (Apply Demo.shopStore hostA data).1.2 !! "j1"
          = Some 1700000000000000000) as HA by (by vm_compute).
  assert (CreatedAt <$> PrintJobs (Apply Demo.shopStore hostB data).1.2 !! "j1"
          = Some 1700000000000000007) as HB by (by vm_compute).
  split; [|split; [|done]].
  - intros Heq.
    assert ((Apply Demo.shopStore hostA data).1.1
            = RespPrintJob (mkPrintJob "j1" "p1" "f1" "benchy.gcode" 60 Queued
                              1700000000000000000 1700000000000000001)) as H1
      by (by vm_compute).
    assert ((Apply Demo.shopStore hostB data).1.1
            = RespPrintJob (mkPrintJob "j1" "p1" "f1" "benchy.gcode" 60 Queued
                              1700000000000000007 1700000000000000008)) as H2
      by (by vm_compute).
    rewrite H1, H2 in Heq. discriminate Heq.
  - intros Heq. rewrite Heq in HA. rewrite HA in HB. discriminate HB.
Qed.

(** ** Snapshot and restore *)

Lemma cloneMap_id {A} (m : gmap string A) : cloneMap m = m.
Proof.
  unfold cloneMap. induction m as [|k v m Hk IH] using map_ind.
  - apply map_fold_empty.
  - rewrite map_fold_insert_L; [by rewrite IH| |done].
    intros j1 j2 z1 z2 y Hne _ _. by apply insert_insert_ne.
Qed.

(** X12. The loops of [Snapshot] range over the maps in an unspecified
    order; in every order the copy is the one [cloneMap] makes, which is
    the original map. *)
Lemma cloneMap_any_order {A} (m : gmap string A) (l : list (string * A)) :
  l ≡ₚ map_to_list m →
  foldr (λ kv snapshot, <[kv.1 := kv.2]> snapshot) ∅ l = cloneMap m
  ∧ cloneMap m = m.
Proof.
  intros Hperm. rewrite cloneMap_id. split; [|done]. change (list_to_map l = m).
  rewrite <- (list_to_map_to_list m). apply list_to_map_proper; [|done].
  rewrite Hperm. apply NoDup_fst_map_to_list.
Qed.

Lemma Snapshot_store `{J : Json} s : snap_store (Snapshot s).1 = s.
Proof. destruct s. simpl. by rewrite !cloneMap_id. Qed.

Lemma Snapshot_succeeds `{J : Json} s : (Snapshot s).2 = None.
Proof. done. Qed.

(** [Restore] fails only when the reader or the decoder fails, and then
    keeps the store it had. *)
Lemma Restore_failure `{J : Json} s rc err s' :
  Restore s rc = (Some err, s') →
  s' = s ∧ (rc = inl err ∨ ∃ data, rc = inr data ∧ json_Unmarshal_Store data = inl err).
Proof.
  unfold Restore. destruct rc as [e|data].
  - intros [= <- <-]. eauto.
  - destruct (json_Unmarshal_Store data) eqn:Hd; intros [= <- <-]. eauto.
Qed.

(** C7, as the code has it.  [Restore] verifies no invariant: it succeeds
    exactly when the byte stream decodes to a store, and then installs the
    store as decoded, whatever the decoded store looks like. *)
Theorem Restore_installs_decoded `{J : Json} s data store :
  Restore s (inr data) = (None, store) ↔ json_Unmarshal_Store data = inr store.
Proof.
  unfold Restore. destruct (json_Unmarshal_Store data) as [err|store'] eqn:Hd.
  - split; intros H; discriminate H.
  - split; intros H; by simplify_eq.
Qed.

Lemma Restore_installs_decoded_witness :
  json_Unmarshal_Store (Demo.text (Demo.encodeStore Demo.shopStore)) = inr Demo.shopStore
  ∧ Restore NewStore (inr (Demo.text (Demo.encodeStore Demo.shopStore)))
    = (None, Demo.shopStore).
Proof.
  assert (json_Unmarshal_Store (Demo.text (Demo.encodeStore Demo.shopStore))
          = inr Demo.shopStore) as Hd by (by vm_compute).
  split; [exact Hd|]. exact (proj2 (Restore_installs_decoded NewStore _ _) Hd).
Defined.

(** C7 fails as stated: a snapshot whose filament has a negative remaining
    weight (I3 broken) is restored without complaint. *)
Lemma Restore_accepts_broken_store :
  let data := Demo.text (Demo.encodeStore Demo.owingStore) in
  json_Unmarshal_Store data = inr Demo.owingStore
  ∧ ¬ weightsBounded Demo.owingStore
  ∧ ¬ budgetRespected Demo.owingStore
  ∧ Restore NewStore (inr data) = (None, Demo.owingStore).
Proof.
  intros data.
  assert (json_Unmarshal_Store data = inr Demo.owingStore) as Hd by (by vm_compute).
  split; [exact Hd|]. split; [|split].
  - intros Hb. specialize (Hb "f1" Demo.plaOwed eq_refl). simpl in Hb. lia.
  - intros Hb. specialize (Hb "f1" Demo.plaOwed eq_refl).
    vm_compute in Hb. by apply Hb.
  - unfold Restore. by rewrite Hd.
Qed.

(** C5. Snapshot, Persist into a fresh sink, then Restore of the bytes
    the sink holds on a fresh FSM gives back the store: all four maps are
    the original ones.  [encoding/json] is the only step that could lose
    anything, and the statement is for the stores it writes and reads
    back. *)
Theorem Snapshot_Restore_roundtrip `{J : Json} s data :
  json_Marshal_Store s = inr data →
  json_Unmarshal_Store data = inr s →
  ∃ sink, Persist (Snapshot s).1 newSink = (None, sink)
          ∧ sink_state sink = SinkClosed
          ∧ sink_data sink = data
          ∧ Restore NewStore (inr (sink_data sink)) = (None, s).
Proof.
  intros Hm Hu. unfold Persist. rewrite Snapshot_store, Hm. simpl.
  eexists. split; [done|]. simpl. repeat split. unfold Restore. by rewrite Hu.
Qed.

Lemma Snapshot_Restore_roundtrip_witness :
  let data := Demo.text (Demo.encodeStore Demo.shopStore) in
  json_Marshal_Store Demo.shopStore = inr data
  ∧ json_Unmarshal_Store data = inr Demo.shopStore
  ∧ ∃ sink, Persist (Snapshot Demo.shopStore).1 newSink = (None, sink)
            ∧ sink_state sink = SinkClosed
            ∧ sink_data sink = data
            ∧ Restore NewStore (inr (sink_data sink)) = (None, Demo.shopStore).
Proof.
  intros data.
  assert (json_Marshal_Store Demo.shopStore = inr data) as Hm by (by vm_compute).
  assert (json_Unmarshal_Store data = inr Demo.shopStore) as Hu by (by vm_compute).
  split; [exact Hm|]. split; [exact Hu|].
  exact (Snapshot_Restore_roundtrip Demo.shopStore data Hm Hu).
Defined.

(** ** What each command does to the three entity maps *)

Section Shapes.
Context `{J : Json}.

Lemma GetNextID_entities s kind :
  Printers (GetNextID s kind).2 = Printers s
  ∧ Filaments (GetNextID s kind).2 = Filaments s
  ∧ PrintJobs (GetNextID s kind).2 = PrintJobs s.
Proof. done. Qed.

Lemma applyCreatePrinter_shape s data r s' :
  applyCreatePrinter s data = (r, s') →
  (is_error r = true ∧ s' = s)
  ∨ ∃ p, r = RespPrinter p
         ∧ Printers s' = <[Printer_ID p := p]> (Printers s)
         ∧ Filaments s' = Filaments s ∧ PrintJobs s' = PrintJobs s.
Proof.
  unfold applyCreatePrinter. destruct (json_Unmarshal_Printer data) as [err|p].
  - intros [= <- <-]. by left.
  - destruct (decide (Printer_ID p = "")); simpl; intros [= <- <-];
      right; eexists; by repeat split.
Qed.

(** The filament [applyCreateFilament] stores for a decoded payload [f0]:
    the payload's weights, with the remaining weight replaced by the total
    when the payload says 0. *)
Lemma applyCreateFilament_shape s data r s' :
  applyCreateFilament s data = (r, s') →
  (is_error r = true ∧ s' = s)
  ∨ ∃ f0 f, json_Unmarshal_Filament data = inr f0
         ∧ r = RespFilament f
         ∧ Filament_ID f =
             (if decide (Filament_ID f0 = "")
              then Itoa (default 0 (NextID s !! "filament")) else Filament_ID f0)
         ∧ TotalWeightInGrams f = TotalWeightInGrams f0
         ∧ RemainingWeightInGrams f =
             (if decide (RemainingWeightInGrams f0 = 0)
              then TotalWeightInGrams f0 else RemainingWeightInGrams f0)
         ∧ Filaments s' = <[Filament_ID f := f]> (Filaments s)
         ∧ Printers s' = Printers s ∧ PrintJobs s' = PrintJobs s.
Proof.
  unfold applyCreateFilament. destruct (json_Unmarshal_Filament data) as [err|f0].
  - intros [= <- <-]. by left.
  - destruct (decide (Filament_ID f0 = "")); simpl;
      destruct (decide (RemainingWeightInGrams f0 = 0)); simpl;
      intros [= <- <-]; right; eexists f0, _; repeat split; try done;
      simpl; by repeat case_decide.
Qed.

Lemma applyCreatePrintJob_shape s clk data r s' clk' :
  applyCreatePrintJob s clk data = (r, s', clk') →
  (is_error r = true ∧ s' = s)
  ∨ ∃ pj job F, json_Unmarshal_PrintJob data = inr pj
         ∧ is_Some (Printers s !! PrinterID pj)
         ∧ Filaments s !! FilamentID pj = Some F
         ∧ CheckFilamentAvailability s (FilamentID pj) (PrintWeightInGrams pj) = None
         ∧ r = RespPrintJob job
         ∧ job = mkPrintJob (PrintJob_ID job) (PrinterID pj) (FilamentID pj)
                   (Filepath pj) (PrintWeightInGrams pj) Queued (clk 0%nat) (clk 1%nat)
         ∧ (PrintJob_ID pj ≠ "" → PrintJob_ID job = PrintJob_ID pj)
         ∧ PrintJobs s' = <[PrintJob_ID job := job]> (PrintJobs s)
         ∧ Printers s' = Printers s ∧ Filaments s' = Filaments s.
Proof.
  unfold applyCreatePrintJob.
  destruct (json_Unmarshal_PrintJob data) as [err|pj]; [intros [= <- <- <-]; by left|].
  destruct (Printers s !! PrinterID pj) eqn:Hp; [|intros [= <- <- <-]; by left].
  destruct (Filaments s !! FilamentID pj) as [F|] eqn:Hf; [|intros [= <- <- <-]; by left].
  destruct (CheckFilamentAvailability _ _ _) eqn:Hc; [intros [= <- <- <-]; by left|].
  destruct (decide (PrintJob_ID pj = "")); simpl; intros [= <- <- <-];
    right; eexists pj, _, F; by repeat split.
Qed.

Lemma applyUpdatePrintJob_shape s clk id status r s' clk' :
  applyUpdatePrintJob s clk id status = (r, s', clk') →
  (is_error r = true ∧ s' = s)
  ∨ ∃ job job', PrintJobs s !! id = Some job
         ∧ delta (PrintJob_Status job) status = true
         ∧ r = RespPrintJob job'
         ∧ job' = mkPrintJob (PrintJob_ID job) (PrinterID job) (FilamentID job)
                    (Filepath job) (PrintWeightInGrams job) status (CreatedAt job)
                    (clk O)
         ∧ PrintJobs s' = <[id := job']> (PrintJobs s)
         ∧ Printers s' = Printers s
         ∧ Filaments s' =
             (if decide (status = Done) then
                let F := default zeroFilament (Filaments s !! FilamentID job) in
                let rem := int_sub (RemainingWeightInGrams F) (PrintWeightInGrams job) in
                <[FilamentID job :=
                    mkFilament (Filament_ID F) (Filament_Type F) (Color F)
                      (TotalWeightInGrams F) (if decide (rem < 0) then 0 else rem)]>
                  (Filaments s)
              else Filaments s).
Proof.
  destruct (PrintJobs s !! id) as [job|] eqn:Hjob.
  - rewrite (applyUpdatePrintJob_found _ _ _ _ _ Hjob). cbv zeta.
    destruct (ValidatePrintJobStatusTransition _ _) eqn:Hv.
    + intros [= <- <- <-]. by left.
    + apply ValidatePrintJobStatusTransition_delta in Hv.
      intros [= <- <- <-]. right. eexists job, _.
      repeat (split; [done|]). simpl.
      destruct (decide (status = Done)); by repeat split.
  - rewrite applyUpdatePrintJob_missing by done. intros [= <- <- <-]. by left.
Qed.

End Shapes.

(** The five ways through [Apply]. *)
Lemma Apply_cases `{J : Json} s clk data r s' clk' :
  Apply s clk data = (r, s', clk') →
  (is_error r = true ∧ s' = s)
  ∨ (∃ cmd, json_Unmarshal_Command data = inr cmd ∧ Cmd_Type cmd = CreatePrinter
            ∧ applyCreatePrinter s (Cmd_Data cmd) = (r, s'))
  ∨ (∃ cmd, json_Unmarshal_Command data = inr cmd ∧ Cmd_Type cmd = CreateFilament
            ∧ applyCreateFilament s (Cmd_Data cmd) = (r, s'))
  ∨ (∃ cmd, json_Unmarshal_Command data = inr cmd ∧ Cmd_Type cmd = CreatePrintJob
            ∧ applyCreatePrintJob s clk (Cmd_Data cmd) = (r, s', clk'))
  ∨ (∃ cmd, json_Unmarshal_Command data = inr cmd ∧ Cmd_Type cmd = UpdatePrintJob
            ∧ applyUpdatePrintJob s clk (Cmd_ID cmd) (Cmd_Status cmd) = (r, s', clk')).
Proof.
  unfold Apply. destruct (json_Unmarshal_Command data) as [err|cmd] eqn:Hd.
  { intros [= <- <- <-]. by left. }
  repeat case_decide.
  - destruct (applyCreatePrinter s (Cmd_Data cmd)) as [r0 s0] eqn:Hp.
    intros [= <- <- <-]. right; left. eauto.
  - destruct (applyCreateFilament s (Cmd_Data cmd)) as [r0 s0] eqn:Hp.
    intros [= <- <- <-]. right; right; left. eauto.
  - intros Happ. right; right; right; left. eauto.
  - intros Happ. right; right; right; right. eauto.
  - intros [= <- <- <-]. by left.
Qed.

(** ** Printers and filaments are kept *)

(** C9, as the code has it.  No command removes a printer or a filament.
    A printer keeps its fields unless the command is a CreatePrinter that
    is stored under the same id (given in the payload or allocated), which
    replaces it.  A filament keeps its id, type, colour and total weight
    unless the command is a CreateFilament stored under the same id. *)
Theorem Apply_keeps_printers_and_filaments `{J : Json} s clk data r s' clk' :
  Apply s clk data = (r, s', clk') →
  (∀ i p, Printers s !! i = Some p →
     Printers s' !! i = Some p
     ∨ ∃ p', r = RespPrinter p' ∧ Printer_ID p' = i ∧ Printers s' !! i = Some p')
  ∧ (∀ i f, Filaments s !! i = Some f →
     ∃ f', Filaments s' !! i = Some f'
           ∧ ((Filament_ID f' = Filament_ID f ∧ Filament_Type f' = Filament_Type f
               ∧ Color f' = Color f ∧ TotalWeightInGrams f' = TotalWeightInGrams f)
              ∨ (r = RespFilament f' ∧ Filament_ID f' = i))).
Proof.
  intros Happ.
  destruct (Apply_cases _ _ _ _ _ _ Happ)
    as [[_ ->]|[(cmd & _ & _ & H)|[(cmd & _ & _ & H)|[(cmd & _ & _ & H)|(cmd & _ & _ & H)]]]].
  - split; [by left|]. intros i f Hf. exists f. split; [done|by left].
  - destruct (applyCreatePrinter_shape _ _ _ _ H) as [[_ ->]|(p' & -> & Hp & Hf & _)].
    { split; [by left|]. intros i f Hf. exists f. split; [done|by left]. }
    split.
    + intros i p Hi. rewrite Hp. destruct (decide (Printer_ID p' = i)) as [<-|Hne].
      * right. exists p'. by rewrite lookup_insert_eq.
      * left. by rewrite lookup_insert_ne.
    + intros i f Hi. rewrite Hf. exists f. split; [done|by left].
  - destruct (applyCreateFilament_shape _ _ _ _ H)
      as [[_ ->]|(f0 & f' & _ & -> & _ & _ & _ & Hf & Hp & _)].
    { split; [by left|]. intros i f Hf. exists f. split; [done|by left]. }
    split; [intros i p Hi; left; by rewrite Hp|].
    intros i f Hi. rewrite Hf. destruct (decide (Filament_ID f' = i)) as [<-|Hne].
    + exists f'. rewrite lookup_insert_eq. split; [done|by right].
    + exists f. rewrite lookup_insert_ne by done. split; [done|by left].
  - destruct (applyCreatePrintJob_shape _ _ _ _ _ _ H)
      as [[_ ->]|(pj & job & F & _ & _ & _ & _ & _ & _ & _ & _ & Hp & Hf)].
    { split; [by left|]. intros i f Hf. exists f. split; [done|by left]. }
    split; [intros i p Hi; left; by rewrite Hp|].
    intros i f Hi. rewrite Hf. exists f. split; [done|by left].
  - destruct (applyUpdatePrintJob_shape _ _ _ _ _ _ _ H)
      as [[_ ->]|(job & job' & _ & _ & _ & _ & _ & Hp & Hf)].
    { split; [by left|]. intros i f Hf. exists f. split; [done|by left]. }
    split; [intros i p Hi; left; by rewrite Hp|].
    intros i f Hi. rewrite Hf. destruct (decide (Cmd_Status cmd = Done)).
    + cbv zeta. destruct (decide (FilamentID job = i)) as [<-|Hne].
      * rewrite lookup_insert_eq, Hi. simpl. eexists. split; [done|]. by left.
      * rewrite lookup_insert_ne by done. exists f. split; [done|by left].
    + exists f. split; [done|by left].
Qed.

Lemma Apply_keeps_printers_and_filaments_witness :
  let s := (Apply NewStore Demo.clock (Demo.entry (Demo.createPrinter Demo.ender))).1.2 in
  let data := Demo.entry (Demo.createFilament Demo.pla100) in
  Printers s !! "p1" = Some Demo.ender
  ∧ (Printers (Apply s Demo.clock data).1.2 !! "p1" = Some Demo.ender
     ∨ ∃ p', (Apply s Demo.clock data).1.1 = RespPrinter p' ∧ Printer_ID p' = "p1"
             ∧ Printers (Apply s Demo.clock data).1.2 !! "p1" = Some p').
Proof.
  intros s data.
  assert (Printers s !! "p1" = Some Demo.ender) as Hp by (by vm_compute).
  split; [exact Hp|].
  destruct (Apply s Demo.clock data) as [[r s'] clk'] eqn:Happ.
  exact (proj1 (Apply_keeps_printers_and_filaments s Demo.clock data r s' clk' Happ)
           "p1" Demo.ender Hp).
Defined.

(** C9 fails as stated: a second CreatePrinter carrying the id of an
    existing printer replaces its company and model. *)
Lemma CreatePrinter_replaces_existing :
  let s := (Apply NewStore Demo.clock (Demo.entry (Demo.createPrinter Demo.ender))).1.2 in
  let s' := (Apply s Demo.clock (Demo.entry (Demo.createPrinter Demo.prusa))).1.2 in
  Printers s !! "p1" = Some (mkPrinter "p1" "Creality" "Ender 3")
  ∧ Printers s' !! "p1" = Some (mkPrinter "p1" "Prusa" "MK4").
Proof. by vm_compute. Qed.

(** ** The filament budget *)

Section Budget.
Implicit Types (jobs : gmap string PrintJob) (fid : string).

Lemma reservedIn_empty fid : reservedIn ∅ fid = 0.
Proof. apply map_fold_empty. Qed.

Lemma reservedIn_insert_fresh jobs fid k job :
  jobs !! k = None →
  reservedIn (<[k := job]> jobs) fid = reserved fid job + reservedIn jobs fid.
Proof.
  intros Hk. unfold reservedIn. rewrite map_fold_insert_L; [done| |done].
  intros. lia.
Qed.

Lemma reservedIn_delete jobs fid k job :
  jobs !! k = Some job →
  reservedIn jobs fid = reserved fid job + reservedIn (delete k jobs) fid.
Proof.
  intros Hk. unfold reservedIn. rewrite (map_fold_delete_L _ _ k job); [done| |done].
  intros. lia.
Qed.

Lemma reservedIn_insert jobs fid k job :
  reservedIn (<[k := job]> jobs) fid
  = reserved fid job + reservedIn (delete k jobs) fid.
Proof.
  rewrite <- insert_delete_eq. apply reservedIn_insert_fresh, lookup_delete_eq.
Qed.

(** Replacing the job under [k] (or adding one there) changes the sum by
    the difference of what the two jobs reserve. *)
Lemma reservedIn_replace jobs fid k job :
  reservedIn (<[k := job]> jobs) fid
  = reservedIn jobs fid + reserved fid job
    - from_option (reserved fid) 0 (jobs !! k).
Proof.
  rewrite reservedIn_insert. destruct (jobs !! k) as [old|] eqn:Hk; simpl.
  - rewrite (reservedIn_delete jobs fid k old Hk). lia.
  - rewrite delete_id by done. lia.
Qed.

Lemma reservedIn_unreferenced jobs fid :
  (∀ k job, jobs !! k = Some job → FilamentID job ≠ fid) →
  reservedIn jobs fid = 0.
Proof.
  induction jobs as [|k job jobs Hk IH] using map_ind; intros Href.
  - apply reservedIn_empty.
  - rewrite reservedIn_insert_fresh by done. rewrite IH.
    + unfold reserved. rewrite decide_False; [done|].
      intros [Hf _]. by apply (Href k job); [apply lookup_insert_eq|].
    + intros k' job' Hk'. apply (Href k'). rewrite lookup_insert_ne; [done|].
      intros ->. congruence.
Qed.

(** The loop of [CheckFilamentAvailability] computes the sum of the
    specification, up to the wrap-around of the accumulator. *)
Lemma addJobWeight_reserved fid job acc :
  addJobWeight fid job (wrap acc) = wrap (reserved fid job + acc).
Proof.
  unfold addJobWeight, reserved, active, int_add. case_decide.
  - rewrite wrap_add_l. f_equal. lia.
  - done.
Qed.

Lemma weightUsed_list fid (l : list (string * PrintJob)) :
  foldr (λ kv acc, addJobWeight fid kv.2 acc) 0 l
  = wrap (foldr (λ kv acc, reserved fid kv.2 + acc) 0 l).
Proof.
  induction l as [|[k job] l IH]; simpl; [done|].
  rewrite IH. apply addJobWeight_reserved.
Qed.

Lemma weightUsedByOtherJobs_wrap s fid :
  weightUsedByOtherJobs s fid = wrap (activeWeight s fid).
Proof.
  unfold weightUsedByOtherJobs, activeWeight, reservedIn.
  rewrite !map_fold_foldr.
  etrans; [|etrans; [apply (weightUsed_list fid (map_to_list (PrintJobs s)))|]].
  - by apply foldr_ext; [intros []|..].
  - f_equal. by apply foldr_ext; [intros []|..].
Qed.

(** X11. Go ranges over a map in an unspecified order; the loop of
    [CheckFilamentAvailability] comes to the same sum in every order. *)
Lemma weightUsedByOtherJobs_any_order s fid (l : list (string * PrintJob)) :
  l ≡ₚ map_to_list (PrintJobs s) →
  foldr (λ kv acc, addJobWeight fid kv.2 acc) 0 l = weightUsedByOtherJobs s fid.
Proof.
  intros Hperm. rewrite weightUsedByOtherJobs_wrap, weightUsed_list. f_equal.
  unfold activeWeight, reservedIn. rewrite map_fold_foldr.
  transitivity (foldr (λ kv acc, reserved fid kv.2 + acc) 0
                  (map_to_list (PrintJobs s))).
  - apply (foldr_permutation_proper (=)); [solve_proper| |done].
    intros [] [] ?. simpl. lia.
  - by apply foldr_ext; [intros []|..].
Qed.

Lemma CheckFilamentAvailability_available s fid F w :
  Filaments s !! fid = Some F →
  CheckFilamentAvailability s fid w = None ↔ w ≤ wrap (available s fid F).
Proof.
  intros HF. unfold CheckFilamentAvailability, available, int_sub. rewrite HF.
  rewrite weightUsedByOtherJobs_wrap, wrap_sub_r.
  case_decide; split; intros; (done || lia).
Qed.

End Budget.

(** C1, as the code has it.  For a CreatePrintJob whose printer and
    filament exist, the job is inserted (status Queued, under its own or an
    allocated id) exactly when the job's weight is at most
    available(F) = remaining(F) − Σ active weights on F as a signed 64-bit
    register holds it; otherwise [Apply] answers an error and the store is
    as before.  [wrap] is the identity on values within the 64-bit range
    ([wrap_in_int]). *)
Theorem CreatePrintJob_budget `{J : Json} s clk data cmd pj F r s' clk' :
  json_Unmarshal_Command data = inr cmd →
  Cmd_Type cmd = CreatePrintJob →
  json_Unmarshal_PrintJob (Cmd_Data cmd) = inr pj →
  is_Some (Printers s !! PrinterID pj) →
  Filaments s !! FilamentID pj = Some F →
  Apply s clk data = (r, s', clk') →
  (PrintWeightInGrams pj ≤ wrap (available s (FilamentID pj) F) →
     ∃ job, r = RespPrintJob job
            ∧ PrintJobs s' = <[PrintJob_ID job := job]> (PrintJobs s)
            ∧ PrintJob_Status job = Queued
            ∧ PrinterID job = PrinterID pj ∧ FilamentID job = FilamentID pj
            ∧ PrintWeightInGrams job = PrintWeightInGrams pj)
  ∧ (wrap (available s (FilamentID pj) F) < PrintWeightInGrams pj →
     is_error r = true ∧ s' = s).
Proof.
  intros Hdec Hty Hpj [p Hp] HF Happ.
  rewrite (Apply_CreatePrintJob _ _ _ _ Hdec Hty) in Happ.
  pose proof (CheckFilamentAvailability_available s _ F (PrintWeightInGrams pj) HF)
    as Hcheck.
  unfold applyCreatePrintJob in Happ. rewrite Hpj, Hp, HF in Happ.
  destruct (CheckFilamentAvailability _ _ _) as [err|] eqn:Hc.
  - injection Happ as <- <- <-. split; [|done].
    intros Hle. apply Hcheck in Hle. discriminate Hle.
  - split; [|intros Hlt; destruct Hcheck as [Hcheck _]; specialize (Hcheck eq_refl); lia].
    intros _. destruct (decide (PrintJob_ID pj = "")); simpl in Happ;
      injection Happ as <- <- <-; eexists; by repeat split.
Qed.

Lemma CreatePrintJob_budget_witness :
  let data := Demo.entry (Demo.createPrintJob (Demo.job "j1" 60)) in
  ∃ r s' clk',
    Apply Demo.shopStore Demo.clock data = (r, s', clk')
    ∧ 60 ≤ wrap (available Demo.shopStore "f1" (mkFilament "f1" "PLA" "red" 100 100))
    ∧ ∃ job, r = RespPrintJob job
             ∧ PrintJobs s' = <[PrintJob_ID job := job]> (PrintJobs Demo.shopStore)
             ∧ PrintJob_Status job = Queued
             ∧ PrinterID job = "p1" ∧ FilamentID job = "f1"
             ∧ PrintWeightInGrams job = 60.
Proof.
  intros data.
  destruct (Apply Demo.shopStore Demo.clock data) as [[r s'] clk'] eqn:Happ.
  exists r, s', clk'. split; [done|].
  assert (60 ≤ wrap (available Demo.shopStore "f1" (mkFilament "f1" "PLA" "red" 100 100)))
    as Hle by (by vm_compute).
  split; [exact Hle|].
  exact (proj1 (CreatePrintJob_budget Demo.shopStore Demo.clock data
                  (Demo.createPrintJob (Demo.job "j1" 60)) (Demo.job "j1" 60)
                  (mkFilament "f1" "PLA" "red" 100 100) r s' clk'
                  eq_refl eq_refl eq_refl (mk_is_Some _ _ eq_refl) eq_refl Happ) Hle).
Defined.

(** C1 fails as stated.  After a printer, a filament of 2^63 − 1 grams
    and a queued job of −1 gram, a job of 1 gram is refused although
    available(F) = (2^63 − 1) − (−1) = 2^63: the subtraction of the check
    overflows to −2^63. *)
Lemma CreatePrintJob_refused_despite_budget :
  let s := (applyLog NewStore Demo.clock
              (Demo.entry <$> [Demo.createPrinter Demo.ender;
                               Demo.createFilament Demo.plaMax;
                               Demo.createPrintJob (Demo.job "j1" (-1))])).1.2 in
  let data := Demo.entry (Demo.createPrintJob (Demo.job "j2" 1)) in
  ∃ F, Filaments s !! "f1" = Some F
       ∧ is_Some (Printers s !! "p1")
       ∧ available s "f1" F = 2 ^ 63
       ∧ 1 ≤ available s "f1" F
       ∧ (Apply s Demo.clock data).1.1
         = RespError "not enough filament: needs 1 grams but only -9223372036854775808 grams available"
       ∧ (Apply s Demo.clock data).1.2 = s.
Proof.
  intros s data. eexists. split; [by vm_compute|].
  split; [vm_compute; eauto|]. split; [by vm_compute|]. split; [by vm_compute|].
  split; by vm_compute.
Qed.

(** ** Finishing a job *)

(** C6, as the code has it.  A successful UpdatePrintJob stamps the job's
    [updated_at] with the clock reading.  When it moves the job to Done and
    the job's filament exists, that filament's remaining weight becomes
    max(0, remaining − weight) with the subtraction as a signed 64-bit
    register holds it, and every other filament is untouched; when it
    moves the job to another status no filament changes. *)
Theorem UpdatePrintJob_Done_consumes `{J : Json} s clk data cmd job r s' clk' :
  json_Unmarshal_Command data = inr cmd →
  Cmd_Type cmd = UpdatePrintJob →
  PrintJobs s !! Cmd_ID cmd = Some job →
  delta (PrintJob_Status job) (Cmd_Status cmd) = true →
  Apply s clk data = (r, s', clk') →
  (∃ job', r = RespPrintJob job' ∧ PrintJobs s' !! Cmd_ID cmd = Some job'
           ∧ PrintJob_Status job' = Cmd_Status cmd ∧ UpdatedAt job' = clk O)
  ∧ (Cmd_Status cmd = Done → ∀ F, Filaments s !! FilamentID job = Some F →
       ∃ F', Filaments s' !! FilamentID job = Some F'
             ∧ RemainingWeightInGrams F'
               = Z.max 0 (wrap (RemainingWeightInGrams F - PrintWeightInGrams job))
             ∧ TotalWeightInGrams F' = TotalWeightInGrams F
             ∧ ∀ fid, fid ≠ FilamentID job → Filaments s' !! fid = Filaments s !! fid)
  ∧ (Cmd_Status cmd ≠ Done → Filaments s' = Filaments s).
Proof.
  intros Hdec Hty Hjob Hdelta Happ.
  rewrite (Apply_UpdatePrintJob _ _ _ _ Hdec Hty) in Happ.
  destruct (applyUpdatePrintJob_shape _ _ _ _ _ _ _ Happ)
    as [[He ->]|(job0 & job' & Hjob0 & _ & -> & -> & Hjobs & _ & Hfil)].
  { rewrite (applyUpdatePrintJob_found _ _ _ _ _ Hjob) in Happ.
    apply ValidatePrintJobStatusTransition_delta in Hdelta. rewrite Hdelta in Happ.
    cbv zeta in Happ. injection Happ as <- _ _. discriminate He. }
  rewrite Hjob in Hjob0. injection Hjob0 as <-.
  split; [|split].
  - eexists. split; [done|]. rewrite Hjobs, lookup_insert_eq. done.
  - intros HDone F HF. rewrite Hfil, decide_True by done. cbv zeta.
    rewrite HF. simpl. eexists. rewrite lookup_insert_eq. split; [done|]. simpl.
    split; [|split; [done|]].
    + unfold int_sub. destruct (decide (wrap _ < 0)); lia.
    + intros fid Hne. by rewrite lookup_insert_ne.
  - intros HDone. by rewrite Hfil, decide_False.
Qed.

Lemma UpdatePrintJob_Done_consumes_witness :
  let s := (applyLog NewStore Demo.clock
              (Demo.entry <$> [Demo.createPrinter Demo.ender;
                               Demo.createFilament Demo.pla100;
                               Demo.createPrintJob (Demo.job "j1" 60);
                               Demo.update "j1" Running])).1.2 in
  let data := Demo.entry (Demo.update "j1" Done) in
  ∃ job, PrintJobs s !! "j1" = Some job
         ∧ delta (PrintJob_Status job) Done = true
         ∧ RemainingWeightInGrams
             <$> Filaments (Apply s Demo.clock data).1.2 !! FilamentID job
           = Some 40.
Proof.
  intros s data.
  destruct (PrintJobs s !! "j1") as [job|] eqn:Hjob; [|by vm_compute in Hjob].
  assert (job = mkPrintJob "j1" "p1" "f1" "benchy.gcode" 60 Running
                  1700000000000000000 1700000000000000002) as Hj.
  { vm_compute in Hjob. by injection Hjob as <-. }
  assert (delta (PrintJob_Status job) Done = true) as Hd by (by rewrite Hj).
  exists job. split; [done|]. split; [exact Hd|].
  destruct (Apply s Demo.clock data) as [[r s'] clk'] eqn:Happ.
  assert (json_Unmarshal_Command data = inr (Demo.update "j1" Done)) as Hdec
    by (by vm_compute).
  destruct (UpdatePrintJob_Done_consumes s Demo.clock data (Demo.update "j1" Done)
              job r s' clk' Hdec eq_refl Hjob Hd Happ) as (_ & HDone & _).
  assert (Filaments s !! FilamentID job = Some (mkFilament "f1" "PLA" "red" 100 100))
    as HF by (rewrite Hj; by vm_compute).
  destruct (HDone eq_refl _ HF) as (F' & HF' & Hrem & _).
  simpl. rewrite HF'. simpl. rewrite Hrem, Hj. by vm_compute.
Defined.

(** C6 fails as stated.  A running job of −1 gram on a filament with
    2^63 − 1 grams left is finished: remaining − weight is 2^63, the
    register holds −2^63, and the clamp leaves 0 grams. *)
Lemma Done_overflow_empties_filament :
  let s := (applyLog NewStore Demo.clock
              (Demo.entry <$> [Demo.createPrinter Demo.ender;
                               Demo.createFilament Demo.plaMax;
                               Demo.createPrintJob (Demo.job "j1" (-1));
                               Demo.update "j1" Running])).1.2 in
  let s' := (Apply s Demo.clock (Demo.entry (Demo.update "j1" Done))).1.2 in
  RemainingWeightInGrams <$> Filaments s !! "f1" = Some (2 ^ 63 - 1)
  ∧ PrintWeightInGrams <$> PrintJobs s !! "j1" = Some (-1)
  ∧ PrintJob_Status <$> PrintJobs s' !! "j1" = Some Done
  ∧ RemainingWeightInGrams <$> Filaments s' !! "f1" = Some 0
  ∧ Z.max 0 ((2 ^ 63 - 1) - (-1)) = 2 ^ 63.
Proof. intros s s'. repeat split; by vm_compute. Qed.

(** ** Invariants along the log *)

Lemma applyLog_invariant `{J : Json} (Inv : Store → Prop) (ok : Store → bytes → Prop) :
  (∀ s clk data r s' clk',
     Inv s → ok s data → Apply s clk data = (r, s', clk') → Inv s') →
  ∀ entries s clk,
    Inv s → guardedLog ok s clk entries → Inv (applyLog s clk entries).1.2.
Proof.
  intros Hstep entries. induction entries as [|data entries IH]; intros s clk Hs Hg.
  - done.
  - simpl in *. destruct Hg as [Hok Hg].
    destruct (Apply s clk data) as [[r s1] clk1] eqn:Happ. simpl in Hg.
    specialize (IH s1 clk1 (Hstep _ _ _ _ _ _ Hs Hok Happ) Hg).
    by destruct (applyLog s1 clk1 entries) as [[rs s2] clk2].
Qed.

Section WeightsBounded.
Context `{J : Json}.

Lemma boundedStore_NewStore : boundedStore NewStore.
Proof. split; intros ? ?; simpl; by rewrite lookup_empty. Qed.

(** The clamp of [applyUpdatePrintJob] on operands within range. *)
Lemma clamp_in_range rem w :
  0 ≤ rem ≤ int_max → 0 ≤ w ≤ int_max →
  (if decide (int_sub rem w < 0) then 0 else int_sub rem w) = Z.max 0 (rem - w).
Proof.
  intros Hr Hw. unfold int_sub. rewrite wrap_in_int.
  - case_decide; lia.
  - unfold in_int, int_min, int_max in *. lia.
Qed.

Lemma boundedStore_step s clk data r s' clk' :
  boundedStore s → payloads boundedFilament data →
  Apply s clk data = (r, s', clk') → boundedStore s'.
Proof.
  intros [Hjobs Hfil] Hok Happ.
  destruct (Apply_cases _ _ _ _ _ _ Happ)
    as [[_ ->]|[(cmd & Hd & Hty & H)|[(cmd & Hd & Hty & H)
       |[(cmd & Hd & Hty & H)|(cmd & Hd & Hty & H)]]]]; [done|..];
    destruct (Hok cmd Hd) as [HokF HokJ].
  - destruct (applyCreatePrinter_shape _ _ _ _ H) as [[_ ->]|(p & _ & _ & HF & HJ)];
      [done|]. split; [unfold weightsOfJobsInRange; by rewrite HJ|by rewrite HF].
  - destruct (applyCreateFilament_shape _ _ _ _ H)
      as [[_ ->]|(f0 & f & Hf0 & _ & _ & Htot & Hrem & HF & _ & HJ)]; [done|].
    split; [unfold weightsOfJobsInRange; by rewrite HJ|].
    intros fid F. rewrite HF. intros [[_ <-]|[_ HF']]%lookup_insert_Some; [|by eauto].
    destruct (HokF Hty f0 Hf0) as [Hb Hmax]. unfold boundedFilament.
    rewrite Hrem, Htot. case_decide; lia.
  - destruct (applyCreatePrintJob_shape _ _ _ _ _ _ H)
      as [[_ ->]|(pj & job & F & Hpj & _ & _ & _ & _ & Hjob & _ & HJ & _ & HF)]; [done|].
    split; [|by rewrite HF].
    intros id job0. rewrite HJ.
    intros [[_ <-]|[_ Hjob0]]%lookup_insert_Some; [|by eauto].
    rewrite Hjob. simpl. by apply HokJ.
  - destruct (applyUpdatePrintJob_shape _ _ _ _ _ _ _ H)
      as [[_ ->]|(job & job' & Hjob & _ & _ & Hjob' & HJ & _ & HF)]; [done|].
    pose proof (Hjobs _ _ Hjob) as Hw.
    split.
    + intros id job0. rewrite HJ.
      intros [[_ <-]|[_ Hjob0]]%lookup_insert_Some; [|by eauto].
      by rewrite Hjob'.
    + intros fid F. rewrite HF. case_decide; [|by eauto]. cbv zeta.
      intros [[_ <-]|[_ HF']]%lookup_insert_Some; [|by eauto].
      assert (boundedFilament (default zeroFilament (Filaments s !! FilamentID job)))
        as [Hb Hmax].
      { destruct (Filaments s !! FilamentID job) as [F0|] eqn:HF0; simpl; [by eauto|].
        unfold boundedFilament, int_max. simpl. lia. }
      unfold boundedFilament. simpl.
      rewrite clamp_in_range by lia. lia.
Qed.

End WeightsBounded.

(** C8, as the code has it.  Along every log applied from the empty store
    in which each CreateFilament payload has 0 ≤ remaining ≤ total and each
    CreatePrintJob payload a print weight ≥ 0 (all within the range of
    [int]), every filament of the resulting store has
    0 ≤ remaining ≤ total. *)
Theorem weightsBounded_along_log `{J : Json} clk entries :
  guardedLog (λ _, payloads boundedFilament) NewStore clk entries →
  weightsBounded (applyLog NewStore clk entries).1.2.
Proof.
  intros Hg.
  pose proof (applyLog_invariant boundedStore (λ _, payloads boundedFilament)
                boundedStore_step entries NewStore clk boundedStore_NewStore Hg)
    as [_ Hfil].
  intros fid F HF. by destruct (Hfil fid F HF).
Qed.

Lemma guardedLog_Forall `{J : Json} (ok : bytes → Prop) s clk entries :
  Forall ok entries → guardedLog (λ _, ok) s clk entries.
Proof.
  intros Hall. revert s clk. induction Hall as [|data entries Hok _ IH]; intros s clk.
  - done.
  - split; [done|apply IH].
Qed.

Lemma weightsBounded_along_log_witness :
  let entries :=
    Demo.entry <$> [Demo.createPrinter Demo.ender; Demo.createFilament Demo.pla100;
                    Demo.createPrintJob (Demo.job "j1" 60);
                    Demo.update "j1" Running; Demo.update "j1" Done] in
  guardedLog (λ _, payloads boundedFilament) NewStore Demo.clock entries
  ∧ weightsBounded (applyLog NewStore Demo.clock entries).1.2.
Proof.
  intros entries.
  assert (guardedLog (λ _, payloads boundedFilament) NewStore Demo.clock entries) as Hg.
  { apply guardedLog_Forall. repeat apply Forall_cons_2; [..|apply Forall_nil_2];
      payloads_by_decoding. }
  split; [exact Hg|]. exact (weightsBounded_along_log Demo.clock entries Hg).
Defined.

(** C8 fails as stated: a CreateFilament whose payload says 10 grams in
    total and 50 remaining is stored as it comes. *)
Lemma CreateFilament_keeps_payload_remaining :
  let s := (Apply NewStore Demo.clock
              (Demo.entry (Demo.createFilament Demo.pla10of50))).1.2 in
  Filaments s !! "f1" = Some (mkFilament "f1" "PLA" "red" 10 50)
  ∧ ¬ weightsBounded s.
Proof.
  intros s.
  assert (Filaments s !! "f1" = Some (mkFilament "f1" "PLA" "red" 10 50)) as HF
    by (by vm_compute).
  split; [exact HF|]. intros Hb. specialize (Hb _ _ HF). simpl in Hb. lia.
Qed.

Section BudgetInvariant.
Context `{J : Json}.

Lemma budgetStore_NewStore : budgetStore NewStore.
Proof.
  split; [|split; [|split]]; intros ? ?; simpl; by rewrite lookup_empty.
Qed.

Lemma reserved_nonneg fid job : 0 ≤ PrintWeightInGrams job → 0 ≤ reserved fid job.
Proof. intros Hw. unfold reserved. case_decide; lia. Qed.

Lemma reservedIn_nonneg s fid : weightsOfJobsInRange s → 0 ≤ activeWeight s fid.
Proof.
  unfold weightsOfJobsInRange, activeWeight.
  induction (PrintJobs s) as [|k job jobs Hk IH] using map_ind; intros Hw.
  - by rewrite reservedIn_empty.
  - rewrite reservedIn_insert_fresh by done.
    pose proof (reserved_nonneg fid job) as Hj.
    specialize (Hw k job (lookup_insert_eq _ _ _)) as Hwk.
    assert (0 ≤ reservedIn jobs fid); [|lia].
    apply IH. intros k' job' Hk'. apply (Hw k').
    rewrite lookup_insert_ne; [done|]. intros ->. congruence.
Qed.

Lemma reserved_active fid job :
  active job →
  reserved fid job = if decide (FilamentID job = fid) then PrintWeightInGrams job else 0.
Proof. intros Ha. unfold reserved. repeat case_decide; tauto. Qed.

Lemma reserved_inactive fid job : ¬ active job → reserved fid job = 0.
Proof. intros Ha. unfold reserved. case_decide; tauto. Qed.

(** What a job reserves before and after a permitted status change. *)
Lemma reserved_after_update fid job status now :
  delta (PrintJob_Status job) status = true →
  0 ≤ PrintWeightInGrams job →
  let job' :=
    mkPrintJob (PrintJob_ID job) (PrinterID job) (FilamentID job) (Filepath job)
      (PrintWeightInGrams job) status (CreatedAt job) now in
  reserved fid job' ≤ reserved fid job
  ∧ (status = Done →
     reserved fid job' = 0
     ∧ reserved fid job
       = if decide (FilamentID job = fid) then PrintWeightInGrams job else 0).
Proof.
  intros Hd Hw job'. apply bool_decide_eq_true in Hd.
  pose proof (reserved_nonneg fid job Hw) as Hnn.
  destruct Hd as [[Hc Hp]|[[Hc Hp]|[[Hc Hp]|[Hc Hp]]]]; subst status.
  - assert (reserved fid job' = reserved fid job) as ->.
    { rewrite !reserved_active; [done|by left|by right]. }
    split; [lia|discriminate].
  - rewrite (reserved_inactive fid job').
    + split; [lia|discriminate].
    + unfold active, job', Queued, Running, Canceled. simpl. intuition discriminate.
  - rewrite (reserved_inactive fid job').
    + split; [lia|]. intros _. split; [done|]. apply reserved_active. by right.
    + unfold active, job', Queued, Running, Done. simpl. intuition discriminate.
  - rewrite (reserved_inactive fid job').
    + split; [lia|discriminate].
    + unfold active, job', Queued, Running, Canceled. simpl. intuition discriminate.
Qed.

(** The budget of the other jobs when the job under [k] is replaced. *)
Lemma reservedIn_replace_le s fid k job :
  weightsOfJobsInRange s →
  reservedIn (<[k := job]> (PrintJobs s)) fid ≤ activeWeight s fid + reserved fid job.
Proof.
  intros Hw. rewrite reservedIn_replace. unfold activeWeight.
  destruct (PrintJobs s !! k) as [old|] eqn:Hold; simpl; [|lia].
  pose proof (reserved_nonneg fid old). specialize (Hw k old Hold). lia.
Qed.

Lemma budgetStore_step s clk data r s' clk' :
  budgetStore s → budgetGuard s data →
  Apply s clk data = (r, s', clk') → budgetStore s'.
Proof.
  intros (Href & Hjobs & Hrem & Hbud) [Hok Hfresh] Happ.
  destruct (Apply_cases _ _ _ _ _ _ Happ)
    as [[_ ->]|[(cmd & Hd & Hty & H)|[(cmd & Hd & Hty & H)
       |[(cmd & Hd & Hty & H)|(cmd & Hd & Hty & H)]]]]; [done|..];
    destruct (Hok cmd Hd) as [HokF HokJ].
  - (* CreatePrinter *)
    destruct (applyCreatePrinter_shape _ _ _ _ H) as [[_ ->]|(p & _ & _ & HF & HJ)];
      [done|].
    unfold budgetStore, weightsOfJobsInRange, budgetRespected, activeWeight.
    by rewrite HJ, HF.
  - (* CreateFilament *)
    destruct (applyCreateFilament_shape _ _ _ _ H)
      as [[_ ->]|(f0 & f & Hf0 & _ & Hid & Htot & Hremf & HF & _ & HJ)]; [done|].
    destruct (HokF Hty f0 Hf0) as [Ht Hr].
    specialize (Hfresh cmd f0 Hd Hty Hf0). rewrite <- Hid in Hfresh.
    assert (0 ≤ RemainingWeightInGrams f ≤ int_max) as Hrf.
    { rewrite Hremf. case_decide; lia. }
    unfold budgetStore, weightsOfJobsInRange, budgetRespected, activeWeight.
    rewrite HJ, HF. split; [|split; [done|split]].
    + intros id job Hjob. destruct (Href id job Hjob) as [F HFj].
      rewrite lookup_insert_ne; [by eauto|]. intros Heq. congruence.
    + intros fid F [[_ <-]|[_ HF']]%lookup_insert_Some; [done|by eauto].
    + intros fid F [[<- <-]|[_ HF']]%lookup_insert_Some; [|by apply Hbud].
      rewrite reservedIn_unreferenced; [lia|].
      intros k job Hjob Heq. destruct (Href k job Hjob) as [F HFj]. congruence.
  - (* CreatePrintJob *)
    destruct (applyCreatePrintJob_shape _ _ _ _ _ _ H)
      as [[_ ->]|(pj & job & F & Hpj & _ & HFpj & Hchk & _ & Hjob & _ & HJ & _ & HF)];
      [done|].
    pose proof (HokJ Hty pj Hpj) as Hw.
    apply (CheckFilamentAvailability_available s _ F) in Hchk; [|done].
    pose proof (Hbud _ _ HFpj) as HbF. pose proof (Hrem _ _ HFpj) as HrF.
    pose proof (reservedIn_nonneg s (FilamentID pj) Hjobs) as Hnn.
    rewrite wrap_in_int in Hchk
      by (unfold available, in_int, int_min, int_max in *; lia).
    unfold available in Hchk.
    unfold budgetStore, weightsOfJobsInRange, budgetRespected, activeWeight.
    rewrite HJ, HF. split; [|split; [|split; [done|]]].
    + intros id job0 [[_ <-]|[_ Hjob0]]%lookup_insert_Some; [|by eauto].
      rewrite Hjob. simpl. by eauto.
    + intros id job0 [[_ <-]|[_ Hjob0]]%lookup_insert_Some; [|by eauto].
      by rewrite Hjob.
    + intros fid F0 HF0.
      pose proof (reservedIn_replace_le s fid (PrintJob_ID job) job Hjobs) as Hle.
      pose proof (Hbud _ _ HF0) as Hb0.
      assert (reserved fid job = if decide (FilamentID pj = fid)
                                 then PrintWeightInGrams pj else 0) as Hres.
      { rewrite reserved_active by (rewrite Hjob; by left). by rewrite Hjob. }
      destruct (decide (FilamentID pj = fid)) as [<-|];
        [rewrite HFpj in HF0; injection HF0 as <-|]; lia.
  - (* UpdatePrintJob *)
    destruct (applyUpdatePrintJob_shape _ _ _ _ _ _ _ H)
      as [[_ ->]|(job & job' & Hjob & Hdelta & _ & Hjob' & HJ & _ & HF)]; [done|].
    pose proof (Hjobs _ _ Hjob) as Hw.
    destruct (Href _ _ Hjob) as [F HFj].
    assert (∀ fid, reservedIn (PrintJobs s') fid
                   = activeWeight s fid + reserved fid job' - reserved fid job) as Hsum.
    { intros fid. rewrite HJ, reservedIn_replace, Hjob. done. }
    assert (∀ fid, reserved fid job' ≤ reserved fid job
                   ∧ (Cmd_Status cmd = Done →
                      reserved fid job' = 0
                      ∧ reserved fid job
                        = if decide (FilamentID job = fid)
                          then PrintWeightInGrams job else 0)) as Hres.
    { intros fid. rewrite Hjob'. by apply reserved_after_update; [|lia]. }
    unfold budgetStore, weightsOfJobsInRange, budgetRespected, activeWeight.
    split; [|split; [|split]].
    + intros id job0. rewrite HJ.
      intros [[_ <-]|[_ Hjob0]]%lookup_insert_Some.
      * rewrite Hjob'. simpl. rewrite HF. case_decide; [|by eauto].
        cbv zeta. rewrite lookup_insert_eq. by eauto.
      * destruct (Href _ _ Hjob0) as [F0 HF0]. rewrite HF.
        case_decide; [|by eauto]. cbv zeta.
        destruct (decide (FilamentID job = FilamentID job0)) as [->|Hne].
        -- rewrite lookup_insert_eq. by eauto.
        -- rewrite lookup_insert_ne by done. by eauto.
    + intros id job0. rewrite HJ.
      intros [[_ <-]|[_ Hjob0]]%lookup_insert_Some; [|by eauto]. by rewrite Hjob'.
    + intros fid F0. rewrite HF. case_decide; [|by eauto]. cbv zeta.
      rewrite HFj. simpl.
      intros [[_ <-]|[_ HF0]]%lookup_insert_Some; [|by eauto]. simpl.
      rewrite clamp_in_range by eauto. unfold int_max in *.
      specialize (Hrem _ _ HFj). lia.
    + intros fid F0. rewrite Hsum, HF. destruct (Hres fid) as [Hle HDone].
      destruct (decide (Cmd_Status cmd = Done)) as [Hst|Hst].
      * cbv zeta. rewrite HFj. simpl. destruct (HDone Hst) as [-> ->].
        intros [[<- <-]|[Hne HF0]]%lookup_insert_Some.
        -- simpl. rewrite clamp_in_range by eauto. rewrite decide_True by done.
           specialize (Hbud _ _ HFj). lia.
        -- rewrite decide_False by done. specialize (Hbud _ _ HF0). lia.
      * intros HF0. specialize (Hbud _ _ HF0). lia.
Qed.

End BudgetInvariant.

(** C4, as the code has it.  Along every log applied from the empty store
    in which no CreateFilament is stored under an id already taken, each
    CreateFilament payload has total ≥ 0 and remaining ≥ 0, and each
    CreatePrintJob payload a print weight ≥ 0 (all within the range of
    [int]), every filament F of the resulting store has
    Σ {print_weight_g of the Queued and Running jobs on F} ≤ remaining(F). *)
Theorem budgetRespected_along_log `{J : Json} clk entries :
  guardedLog budgetGuard NewStore clk entries →
  budgetRespected (applyLog NewStore clk entries).1.2.
Proof.
  intros Hg.
  by pose proof (applyLog_invariant budgetStore budgetGuard budgetStore_step
                   entries NewStore clk budgetStore_NewStore Hg) as (_ & _ & _ & Hb).
Qed.

Lemma budgetRespected_along_log_witness :
  let entries :=
    Demo.entry <$> [Demo.createPrinter Demo.ender; Demo.createFilament Demo.pla100;
                    Demo.createPrintJob (Demo.job "j1" 60);
                    Demo.createPrintJob (Demo.job "j2" 50);
                    Demo.update "j1" Running; Demo.update "j1" Done] in
  guardedLog budgetGuard NewStore Demo.clock entries
  ∧ budgetRespected (applyLog NewStore Demo.clock entries).1.2.
Proof.
  intros entries.
  assert (guardedLog budgetGuard NewStore Demo.clock entries) as Hg.
  { unfold entries. cbn [guardedLog fmap list_fmap]. unfold budgetGuard.
    repeat match goal with
           | |- _ ∧ _ => split
           | |- payloads _ _ => payloads_by_decoding
           | |- freshFilament _ _ => freshFilament_by_decoding
           end; exact I. }
  split; [exact Hg|]. exact (budgetRespected_along_log Demo.clock entries Hg).
Defined.

(** C4 fails as stated: a CreateFilament carrying the id of an existing
    filament replaces it, whatever is reserved on it.  Here 60 grams are
    queued on a filament that the second CreateFilament leaves with 10. *)
Lemma CreateFilament_overwrite_breaks_budget :
  let s := (applyLog NewStore Demo.clock
              (Demo.entry <$> [Demo.createPrinter Demo.ender;
                               Demo.createFilament Demo.pla100;
                               Demo.createPrintJob (Demo.job "j1" 60);
                               Demo.createFilament Demo.pla10])).1.2 in
  Filaments s !! "f1" = Some (mkFilament "f1" "PLA" "red" 10 10)
  ∧ activeWeight s "f1" = 60
  ∧ ¬ budgetRespected s.
Proof.
  intros s.
  assert (Filaments s !! "f1" = Some (mkFilament "f1" "PLA" "red" 10 10)) as HF
    by (by vm_compute).
  assert (activeWeight s "f1" = 60) as Hsum by (by vm_compute).
  split; [exact HF|]. split; [exact Hsum|].
  intros Hb. specialize (Hb _ _ HF). rewrite Hsum in Hb. simpl in Hb. lia.
Qed.

(** ** The id allocator *)

(** X1. Two consecutive allocations for the same kind never return the
    same id, whatever the counter holds (the wrap-around at the largest
    [int] included). *)
Theorem GetNextID_consecutive s kind :
  (GetNextID s kind).1 ≠ (GetNextID (GetNextID s kind).2 kind).1.
Proof.
  unfold GetNextID, Itoa. simpl. rewrite lookup_insert_eq. simpl.
  intros Heq. apply (inj pretty) in Heq. revert Heq.
  generalize (default 0 (NextID s !! kind)). intros c Hc.
  pose proof (wrap_range (c + 1)) as Hr. unfold int_add in Hc.
  rewrite <- Hc in Hr.
  destruct (decide (c = int_max)) as [->|Hne].
  - vm_compute in Hc. discriminate Hc.
  - rewrite wrap_in_int in Hc; [lia|].
    unfold in_int, int_min, int_max in *. lia.
Qed.

(** X2. [Apply] changes the id counters only by allocating: afterwards the
    counters are as before, or exactly one of the three kinds has been
    advanced by one. *)
Theorem Apply_counters `{J : Json} s clk data r s' clk' :
  Apply s clk data = (r, s', clk') →
  NextID s' = NextID s
  ∨ ∃ kind, kind ∈ ["printer"; "filament"; "printjob"]
            ∧ NextID s' = <[kind := int_add (default 0 (NextID s !! kind)) 1]> (NextID s).
Proof.
  unfold Apply. destruct (json_Unmarshal_Command data) as [err|cmd].
  { intros [= <- <- <-]. by left. }
  repeat case_decide.
  - unfold applyCreatePrinter.
    destruct (json_Unmarshal_Printer _) as [err|p]; [intros [= <- <- <-]; by left|].
    destruct (decide (Printer_ID p = "")); simpl; intros [= <- <- <-]; [|by left].
    right. exists "printer". split; [set_solver|done].
  - unfold applyCreateFilament.
    destruct (json_Unmarshal_Filament _) as [err|f]; [intros [= <- <- <-]; by left|].
    destruct (decide (Filament_ID f = "")); simpl; intros [= <- <- <-]; [|by left].
    right. exists "filament". split; [set_solver|done].
  - unfold applyCreatePrintJob.
    destruct (json_Unmarshal_PrintJob _) as [err|pj]; [intros [= <- <- <-]; by left|].
    destruct (Printers s !! PrinterID pj); [|intros [= <- <- <-]; by left].
    destruct (Filaments s !! FilamentID pj); [|intros [= <- <- <-]; by left].
    destruct (CheckFilamentAvailability _ _ _); [intros [= <- <- <-]; by left|].
    destruct (decide (PrintJob_ID pj = "")); simpl; intros [= <- <- <-]; [|by left].
    right. exists "printjob". split; [set_solver|done].
  - unfold applyUpdatePrintJob.
    destruct (PrintJobs s !! Cmd_ID cmd); [|intros [= <- <- <-]; by left].
    destruct (ValidatePrintJobStatusTransition _ _); [intros [= <- <- <-]; by left|].
    simpl. intros [= <- <- <-]. left. by case_decide.
  - intros [= <- <- <-]. by left.
Qed.

Lemma Apply_counters_witness :
  let data := Demo.entry (Demo.createPrinter Demo.ender) in
  NextID (Apply NewStore Demo.clock data).1.2 = NextID NewStore
  ∨ ∃ kind, kind ∈ ["printer"; "filament"; "printjob"]
            ∧ NextID (Apply NewStore Demo.clock data).1.2
              = <[kind := int_add (default 0 (NextID NewStore !! kind)) 1]>
                  (NextID NewStore).
Proof.
  intros data.
  destruct (Apply NewStore Demo.clock data) as [[r s'] clk'] eqn:Happ.
  exact (Apply_counters NewStore Demo.clock data r s' clk' Happ).
Defined.

(** X3. What [Apply] answers is what the store now holds: a printer or a
    filament in the response is the entry under its own id, a job in the
    response is an entry of the job map. *)
Theorem Apply_response_is_stored `{J : Json} s clk data r s' clk' :
  Apply s clk data = (r, s', clk') →
  match r with
  | RespError _ => True
  | RespPrinter p => Printers s' !! Printer_ID p = Some p
  | RespFilament f => Filaments s' !! Filament_ID f = Some f
  | RespPrintJob job => ∃ k, PrintJobs s' !! k = Some job
  end.
Proof.
  intros Happ.
  destruct (Apply_cases _ _ _ _ _ _ Happ)
    as [[He _]|[(cmd & _ & _ & H)|[(cmd & _ & _ & H)|[(cmd & _ & _ & H)|(cmd & _ & _ & H)]]]].
  - by destruct r.
  - destruct (applyCreatePrinter_shape _ _ _ _ H) as [[He _]|(p & -> & -> & _)];
      [by destruct r|]. apply lookup_insert_eq.
  - destruct (applyCreateFilament_shape _ _ _ _ H)
      as [[He _]|(f0 & f & _ & -> & _ & _ & _ & -> & _)]; [by destruct r|].
    apply lookup_insert_eq.
  - destruct (applyCreatePrintJob_shape _ _ _ _ _ _ H)
      as [[He _]|(pj & job & F & _ & _ & _ & _ & -> & _ & _ & -> & _)];
      [by destruct r|].
    eexists. apply lookup_insert_eq.
  - destruct (applyUpdatePrintJob_shape _ _ _ _ _ _ _ H)
      as [[He _]|(job & job' & _ & _ & -> & _ & -> & _)]; [by destruct r|].
    eexists. apply lookup_insert_eq.
Qed.

Lemma Apply_response_is_stored_witness :
  let data := Demo.entry (Demo.createFilament Demo.pla100) in
  ∃ f, (Apply NewStore Demo.clock data).1.1 = RespFilament f
       ∧ Filaments (Apply NewStore Demo.clock data).1.2 !! Filament_ID f = Some f.
Proof.
  intros data.
  destruct (Apply NewStore Demo.clock data) as [[r s'] clk'] eqn:Happ.
  pose proof (Apply_response_is_stored NewStore Demo.clock data r s' clk' Happ) as Hst.
  assert (r = RespFilament (mkFilament "f1" "PLA" "red" 100 100)) as Hr.
  { apply (f_equal (λ x, x.1.1)) in Happ. vm_compute in Happ. done. }
  rewrite Hr in Hst. simpl. eexists. split; [exact Hr|exact Hst].
Defined.

(** ** Shapes kept along every log *)

Lemma applyLog_preserves `{J : Json} (Inv : Store → Prop) :
  (∀ s clk data r s' clk', Inv s → Apply s clk data = (r, s', clk') → Inv s') →
  ∀ entries s clk, Inv s → Inv (applyLog s clk entries).1.2.
Proof.
  intros Hstep entries. induction entries as [|data entries IH]; intros s clk Hs.
  - done.
  - simpl. destruct (Apply s clk data) as [[r s1] clk1] eqn:Happ.
    specialize (IH s1 clk1 (Hstep _ _ _ _ _ _ Hs Happ)).
    by destruct (applyLog s1 clk1 entries) as [[rs s2] clk2].
Qed.

Section Kept.
Context `{J : Json}.

Lemma referencesResolve_step s clk data r s' clk' :
  referencesResolve s → Apply s clk data = (r, s', clk') → referencesResolve s'.
Proof.
  intros Href Happ.
  destruct (Apply_cases _ _ _ _ _ _ Happ)
    as [[_ ->]|[(cmd & _ & _ & H)|[(cmd & _ & _ & H)|[(cmd & _ & _ & H)|(cmd & _ & _ & H)]]]];
    [done|..].
  - destruct (applyCreatePrinter_shape _ _ _ _ H) as [[_ ->]|(p & _ & HP & HF & HJ)];
      [done|].
    intros id job. rewrite HJ, HP, HF. intros Hjob.
    destruct (Href id job Hjob) as [[p0 Hp0] HFj]. split; [|done].
    destruct (decide (Printer_ID p = PrinterID job)) as [->|Hne].
    + rewrite lookup_insert_eq. by eauto.
    + rewrite lookup_insert_ne by done. by eauto.
  - destruct (applyCreateFilament_shape _ _ _ _ H)
      as [[_ ->]|(f0 & f & _ & _ & _ & _ & _ & HF & HP & HJ)]; [done|].
    intros id job. rewrite HJ, HP, HF. intros Hjob.
    destruct (Href id job Hjob) as [HPj [F0 HF0]]. split; [done|].
    destruct (decide (Filament_ID f = FilamentID job)) as [->|Hne].
    + rewrite lookup_insert_eq. by eauto.
    + rewrite lookup_insert_ne by done. by eauto.
  - destruct (applyCreatePrintJob_shape _ _ _ _ _ _ H)
      as [[_ ->]|(pj & job & F & _ & HPj & HFj & _ & _ & Hjob & _ & HJ & HP & HF)];
      [done|].
    intros id job0. rewrite HJ, HP, HF.
    intros [[_ <-]|[_ Hjob0]]%lookup_insert_Some; [|by apply (Href id)].
    rewrite Hjob. simpl. by eauto.
  - destruct (applyUpdatePrintJob_shape _ _ _ _ _ _ _ H)
      as [[_ ->]|(job & job' & Hjob & _ & _ & Hjob' & HJ & HP & HF)]; [done|].
    assert (∀ fid, is_Some (Filaments s !! fid) → is_Some (Filaments s' !! fid))
      as Hkeep.
    { intros fid [F0 HF0]. rewrite HF. case_decide; [|by eauto]. cbv zeta.
      destruct (decide (FilamentID job = fid)) as [->|Hne].
      - rewrite lookup_insert_eq. by eauto.
      - rewrite lookup_insert_ne by done. by eauto. }
    intros id job0. rewrite HJ, HP.
    intros [[_ <-]|[_ Hjob0]]%lookup_insert_Some.
    + rewrite Hjob'. simpl. destruct (Href _ _ Hjob) as [HPj HFj]. by eauto.
    + destruct (Href _ _ Hjob0) as [HPj HFj]. by eauto.
Qed.

Lemma keyedByID_step s clk data r s' clk' :
  referencesResolve s → keyedByID s →
  Apply s clk data = (r, s', clk') → keyedByID s'.
Proof.
  intros Href (HkP & HkF & HkJ) Happ.
  destruct (Apply_cases _ _ _ _ _ _ Happ)
    as [[_ ->]|[(cmd & _ & _ & H)|[(cmd & _ & _ & H)|[(cmd & _ & _ & H)|(cmd & _ & _ & H)]]]];
    [done|..].
  - destruct (applyCreatePrinter_shape _ _ _ _ H) as [[_ ->]|(p & _ & HP & HF & HJ)];
      [done|].
    unfold keyedByID. rewrite HP, HF, HJ. split; [|done].
    intros k p0 [[<- <-]|[_ Hp0]]%lookup_insert_Some; [done|by eauto].
  - destruct (applyCreateFilament_shape _ _ _ _ H)
      as [[_ ->]|(f0 & f & _ & _ & _ & _ & _ & HF & HP & HJ)]; [done|].
    unfold keyedByID. rewrite HP, HF, HJ. split; [done|split; [|done]].
    intros k f1 [[<- <-]|[_ Hf1]]%lookup_insert_Some; [done|by eauto].
  - destruct (applyCreatePrintJob_shape _ _ _ _ _ _ H)
      as [[_ ->]|(pj & job & F & _ & _ & _ & _ & _ & _ & _ & HJ & HP & HF)]; [done|].
    unfold keyedByID. rewrite HP, HF, HJ. split; [done|split; [done|]].
    intros k job0 [[<- <-]|[_ Hjob0]]%lookup_insert_Some; [done|by eauto].
  - destruct (applyUpdatePrintJob_shape _ _ _ _ _ _ _ H)
      as [[_ ->]|(job & job' & Hjob & _ & _ & Hjob' & HJ & HP & HF)]; [done|].
    unfold keyedByID. rewrite HP, HF, HJ. split; [done|split].
    + case_decide; [|done]. cbv zeta.
      destruct (Href _ _ Hjob) as [_ [F HFj]]. rewrite HFj. simpl.
      intros k f1 [[<- <-]|[_ Hf1]]%lookup_insert_Some; [|by eauto].
      simpl. by apply HkF.
    + intros k job0 [[<- <-]|[_ Hjob0]]%lookup_insert_Some; [|by eauto].
      rewrite Hjob'. simpl. by apply HkJ.
Qed.

Lemma statusesKnown_step s clk data r s' clk' :
  statusesKnown s → Apply s clk data = (r, s', clk') → statusesKnown s'.
Proof.
  intros Hst Happ.
  destruct (Apply_cases _ _ _ _ _ _ Happ)
    as [[_ ->]|[(cmd & _ & _ & H)|[(cmd & _ & _ & H)|[(cmd & _ & _ & H)|(cmd & _ & _ & H)]]]];
    [done|..].
  - destruct (applyCreatePrinter_shape _ _ _ _ H) as [[_ ->]|(p & _ & _ & _ & HJ)];
      [done|]. unfold statusesKnown. by rewrite HJ.
  - destruct (applyCreateFilament_shape _ _ _ _ H)
      as [[_ ->]|(f0 & f & _ & _ & _ & _ & _ & _ & _ & HJ)]; [done|].
    unfold statusesKnown. by rewrite HJ.
  - destruct (applyCreatePrintJob_shape _ _ _ _ _ _ H)
      as [[_ ->]|(pj & job & F & _ & _ & _ & _ & _ & Hjob & _ & HJ & _)]; [done|].
    intros id job0. rewrite HJ.
    intros [[_ <-]|[_ Hjob0]]%lookup_insert_Some; [|by eauto].
    rewrite Hjob. simpl. set_solver.
  - destruct (applyUpdatePrintJob_shape _ _ _ _ _ _ _ H)
      as [[_ ->]|(job & job' & _ & Hdelta & _ & Hjob' & HJ & _)]; [done|].
    intros id job0. rewrite HJ.
    intros [[_ <-]|[_ Hjob0]]%lookup_insert_Some; [|by eauto].
    rewrite Hjob'. simpl. apply bool_decide_eq_true in Hdelta.
    destruct Hdelta as [[_ ->]|[[_ ->]|[[_ ->]|[_ ->]]]]; set_solver.
Qed.

End Kept.

(** X4. Referential integrity (I1, I2) is kept by every log: if every job
    of a store refers to a printer and a filament of the store, the same
    holds after any sequence of entries, valid or not. *)
Theorem referencesResolve_along_log `{J : Json} s clk entries :
  referencesResolve s → referencesResolve (applyLog s clk entries).1.2.
Proof. apply (applyLog_preserves referencesResolve), referencesResolve_step. Qed.

Lemma referencesResolve_along_log_witness :
  let entries :=
    Demo.entry <$> [Demo.createPrinter Demo.ender; Demo.createFilament Demo.pla100;
                    Demo.createPrintJob (Demo.job "j1" 60); Demo.update "j1" Running] in
  referencesResolve NewStore
  ∧ referencesResolve (applyLog NewStore Demo.clock entries).1.2.
Proof.
  intros entries.
  assert (referencesResolve NewStore) as H0.
  { intros id job Hjob. simpl in Hjob. by rewrite lookup_empty in Hjob. }
  split; [exact H0|].
  exact (referencesResolve_along_log NewStore Demo.clock entries H0).
Defined.

(** X5. Starting from a store with referential integrity in which every
    printer, filament and job sits under its own id, every log leaves a
    store in which every entity sits under its own id. *)
Theorem keyedByID_along_log `{J : Json} s clk entries :
  referencesResolve s → keyedByID s → keyedByID (applyLog s clk entries).1.2.
Proof.
  intros Href Hkey.
  apply (applyLog_preserves (λ s, referencesResolve s ∧ keyedByID s)); [|done].
  intros s0 clk0 data r s1 clk1 [Href0 Hkey0] Happ. split.
  - by eapply referencesResolve_step.
  - by eapply keyedByID_step.
Qed.

Lemma keyedByID_along_log_witness :
  let entries :=
    Demo.entry <$> [Demo.createPrinter Demo.ender; Demo.createFilament Demo.pla100;
                    Demo.createPrintJob (Demo.job "j1" 60); Demo.update "j1" Running] in
  referencesResolve NewStore ∧ keyedByID NewStore
  ∧ keyedByID (applyLog NewStore Demo.clock entries).1.2.
Proof.
  intros entries.
  assert (referencesResolve NewStore) as H0.
  { intros id job Hjob. simpl in Hjob. by rewrite lookup_empty in Hjob. }
  assert (keyedByID NewStore) as H1.
  { split; [|split]; intros k x Hx; simpl in Hx; by rewrite lookup_empty in Hx. }
  split; [exact H0|]. split; [exact H1|].
  exact (keyedByID_along_log NewStore Demo.clock entries H0 H1).
Defined.

(** X6. If every job of a store is Queued, Running, Done or Canceled, so
    is every job after any log: no command stores another status. *)
Theorem statusesKnown_along_log `{J : Json} s clk entries :
  statusesKnown s → statusesKnown (applyLog s clk entries).1.2.
Proof. apply (applyLog_preserves statusesKnown), statusesKnown_step. Qed.

Lemma statusesKnown_along_log_witness :
  let entries :=
    Demo.entry <$> [Demo.createPrinter Demo.ender; Demo.createFilament Demo.pla100;
                    Demo.createPrintJob (Demo.job "j1" 60); Demo.update "j1" Running] in
  statusesKnown NewStore ∧ statusesKnown (applyLog NewStore Demo.clock entries).1.2.
Proof.
  intros entries.
  assert (statusesKnown NewStore) as H0.
  { intros id job Hjob. simpl in Hjob. by rewrite lookup_empty in Hjob. }
  split; [exact H0|].
  exact (statusesKnown_along_log NewStore Demo.clock entries H0).
Defined.

(** ** Bookkeeping of the reserved weight *)

(** X7. A successful UpdatePrintJob releases the job's reservation exactly
    when the job leaves the active statuses: moving to Running leaves the
    active weight of every filament as it was; moving to Done or Canceled
    takes the job's print weight off the active weight of the job's
    filament and leaves every other filament's active weight as it was. *)
Theorem UpdatePrintJob_releases_weight `{J : Json} s clk id status job r s' clk' fid :
  PrintJobs s !! id = Some job →
  delta (PrintJob_Status job) status = true →
  applyUpdatePrintJob s clk id status = (r, s', clk') →
  activeWeight s' fid
  = activeWeight s fid
    - (if decide (FilamentID job = fid ∧ status ≠ Running)
       then PrintWeightInGrams job else 0).
Proof.
  intros Hjob Hdelta Happ.
  destruct (applyUpdatePrintJob_shape _ _ _ _ _ _ _ Happ)
    as [[He ->]|(job0 & job' & Hjob0 & _ & _ & -> & HJ & _)].
  { rewrite (applyUpdatePrintJob_found _ _ _ _ _ Hjob) in Happ.
    apply ValidatePrintJobStatusTransition_delta in Hdelta. rewrite Hdelta in Happ.
    cbv zeta in Happ. injection Happ as <- _ _. discriminate He. }
  rewrite Hjob in Hjob0. injection Hjob0 as <-.
  unfold activeWeight. rewrite HJ.
  rewrite reservedIn_replace, Hjob. simpl.
  apply bool_decide_eq_true in Hdelta.
  assert (active job) as Hact.
  { unfold active. destruct Hdelta as [[-> _]|[[-> _]|[[-> _]|[-> _]]]]; auto. }
  rewrite (reserved_active fid job Hact).
  destruct (decide (status = Running)) as [->|Hnr].
  - rewrite reserved_active by (by right). simpl.
    rewrite (decide_False (P := _ ∧ _)) by tauto. case_decide; lia.
  - rewrite reserved_inactive.
    + destruct (decide (FilamentID job = fid)) as [Hf|Hf].
      * rewrite decide_True by done. lia.
      * rewrite decide_False by tauto. lia.
    + unfold active. simpl. intros [Hq|Hr]; [|done].
      unfold Queued, Running, Done, Canceled in *.
      destruct Hdelta as [[_ ->]|[[_ ->]|[[_ ->]|[_ ->]]]]; discriminate || done.
Qed.

Lemma UpdatePrintJob_releases_weight_witness :
  let job := mkPrintJob "j1" "p1" "f1" "a.gcode" 60 Queued 1 1 in
  PrintJobs Cases.busyStore !! "j1" = Some job
  ∧ delta (PrintJob_Status job) Canceled = true
  ∧ activeWeight (applyUpdatePrintJob Cases.busyStore Demo.clock "j1" Canceled).1.2 "f1"
    = activeWeight Cases.busyStore "f1" - 60.
Proof.
  intros job.
  assert (PrintJobs Cases.busyStore !! "j1" = Some job) as Hjob by (by vm_compute).
  split; [exact Hjob|]. split; [done|].
  destruct (applyUpdatePrintJob Cases.busyStore Demo.clock "j1" Canceled)
    as [[r s'] clk'] eqn:Happ.
  exact (UpdatePrintJob_releases_weight Cases.busyStore Demo.clock "j1" Canceled job
           r s' clk' "f1" Hjob eq_refl Happ).
Defined.

(** X8. A job created under an id that was free adds exactly its print
    weight to the active weight of its filament and nothing to the active
    weight of any other filament. *)
Theorem CreatePrintJob_reserves_weight `{J : Json} s clk data job s' clk' fid :
  applyCreatePrintJob s clk data = (RespPrintJob job, s', clk') →
  PrintJobs s !! PrintJob_ID job = None →
  activeWeight s' fid
  = activeWeight s fid
    + (if decide (FilamentID job = fid) then PrintWeightInGrams job else 0).
Proof.
  intros Happ Hfree.
  destruct (applyCreatePrintJob_shape _ _ _ _ _ _ Happ)
    as [[He _]|(pj & job0 & F & _ & _ & _ & _ & [= <-] & Hjob & _ & HJ & _)];
    [discriminate He|].
  unfold activeWeight. rewrite HJ, reservedIn_insert_fresh by done.
  rewrite reserved_active; [lia|]. rewrite Hjob. by left.
Qed.

Lemma CreatePrintJob_reserves_weight_witness :
  let data := Demo.text (Demo.encodePrintJob (Demo.job "j1" 60)) in
  ∃ job s' clk',
    applyCreatePrintJob Demo.shopStore Demo.clock data = (RespPrintJob job, s', clk')
    ∧ PrintJobs Demo.shopStore !! PrintJob_ID job = None
    ∧ activeWeight s' "f1" = activeWeight Demo.shopStore "f1" + 60.
Proof.
  intros data.
  destruct (applyCreatePrintJob Demo.shopStore Demo.clock data) as [[r s'] clk'] eqn:Happ.
  assert (r = RespPrintJob (mkPrintJob "j1" "p1" "f1" "benchy.gcode" 60 Queued
                              1700000000000000000 1700000000000000001)) as Hr.
  { apply (f_equal (λ x, x.1.1)) in Happ. vm_compute in Happ. done. }
  subst r. eexists _, s', clk'. split; [done|].
  split; [done|].
  exact (CreatePrintJob_reserves_weight Demo.shopStore Demo.clock data _ s' clk' "f1"
           Happ eq_refl).
Defined.

(** X9. The refusal of [CheckFilamentAvailability] reports the numbers of
    the budget: the weight asked for and available(F) as the register
    holds it. *)
Theorem CheckFilamentAvailability_message s fid F w :
  Filaments s !! fid = Some F →
  wrap (available s fid F) < w →
  CheckFilamentAvailability s fid w
  = Some ("not enough filament: needs " +:+ pretty w +:+ " grams but only "
          +:+ pretty (wrap (available s fid F)) +:+ " grams available").
Proof.
  intros HF Hlt. unfold CheckFilamentAvailability, available, int_sub in *.
  rewrite HF, weightUsedByOtherJobs_wrap, wrap_sub_r. by rewrite decide_True.
Qed.

Lemma CheckFilamentAvailability_message_witness :
  let F := mkFilament "f1" "PLA" "red" 100 100 in
  Filaments Cases.busyStore !! "f1" = Some F
  ∧ wrap (available Cases.busyStore "f1" F) = 40
  ∧ CheckFilamentAvailability Cases.busyStore "f1" 50
    = Some "not enough filament: needs 50 grams but only 40 grams available".
Proof.
  intros F.
  assert (Filaments Cases.busyStore !! "f1" = Some F) as HF by (by vm_compute).
  assert (wrap (available Cases.busyStore "f1" F) = 40) as Ha by (by vm_compute).
  split; [exact HF|]. split; [exact Ha|].
  rewrite (CheckFilamentAvailability_message Cases.busyStore "f1" F 50 HF)
    by (rewrite Ha; lia).
  by rewrite Ha.
Defined.

(** X10. Finishing a job whose filament is not in the store does not
    fail: it stores, under the job's filament id, the zero filament (empty
    id, type and colour, total 0) with remaining max(0, −weight). *)
Theorem Done_without_filament `{J : Json} s clk id job r s' clk' :
  PrintJobs s !! id = Some job →
  PrintJob_Status job = Running →
  Filaments s !! FilamentID job = None →
  applyUpdatePrintJob s clk id Done = (r, s', clk') →
  is_error r = false
  ∧ Filaments s'
    = <[FilamentID job :=
          mkFilament "" "" "" 0 (Z.max 0 (wrap (- PrintWeightInGrams job)))]>
        (Filaments s).
Proof.
  intros Hjob Hrun Hmiss Happ.
  destruct (applyUpdatePrintJob_shape _ _ _ _ _ _ _ Happ)
    as [[He ->]|(job0 & job' & Hjob0 & _ & -> & _ & _ & _ & HF)].
  - rewrite (applyUpdatePrintJob_found _ _ _ _ _ Hjob), Hrun in Happ.
    cbv zeta in Happ. simpl in Happ. injection Happ as <- _ _. discriminate He.
  - rewrite Hjob in Hjob0. injection Hjob0 as <-. split; [done|].
    rewrite HF, decide_True by done. cbv zeta. rewrite Hmiss. simpl.
    unfold int_sub. do 2 f_equal. simpl.
    replace (0 - PrintWeightInGrams job) with (- PrintWeightInGrams job) by lia.
    destruct (decide (wrap _ < 0)); lia.
Qed.

Lemma Done_without_filament_witness :
  let job := mkPrintJob "j1" "p1" "f9" "benchy.gcode" 60 Running 5 6 in
  PrintJobs Cases.danglingStore !! "j1" = Some job
  ∧ Filaments Cases.danglingStore !! "f9" = None
  ∧ Filaments (applyUpdatePrintJob Cases.danglingStore Demo.clock "j1" Done).1.2
    = <["f9" := mkFilament "" "" "" 0 (Z.max 0 (wrap (- 60)))]> ∅.
Proof.
  intros job.
  assert (PrintJobs Cases.danglingStore !! "j1" = Some job) as Hjob by (by vm_compute).
  split; [exact Hjob|]. split; [done|].
  destruct (applyUpdatePrintJob Cases.danglingStore Demo.clock "j1" Done)
    as [[r s'] clk'] eqn:Happ.
  exact (proj2 (Done_without_filament Cases.danglingStore Demo.clock "j1" job r s' clk'
                  Hjob eq_refl eq_refl Happ)).
Defined.

Lemma weightUsedByOtherJobs_any_order_witness :
  let l := reverse (map_to_list (PrintJobs Cases.busyStore)) in
  l ≡ₚ map_to_list (PrintJobs Cases.busyStore)
  ∧ foldr (λ kv acc, addJobWeight "f1" kv.2 acc) 0 l
    = weightUsedByOtherJobs Cases.busyStore "f1".
Proof.
  intros l.
  assert (l ≡ₚ map_to_list (PrintJobs Cases.busyStore)) as Hperm
    by apply reverse_Permutation.
  split; [exact Hperm|].
  exact (weightUsedByOtherJobs_any_order Cases.busyStore "f1" l Hperm).
Defined.

Lemma cloneMap_any_order_witness :
  let l := reverse (map_to_list (PrintJobs Cases.busyStore)) in
  l ≡ₚ map_to_list (PrintJobs Cases.busyStore)
  ∧ foldr (λ kv snapshot, <[kv.1 := kv.2]> snapshot) ∅ l
    = cloneMap (PrintJobs Cases.busyStore).
Proof.
  intros l.
  assert (l ≡ₚ map_to_list (PrintJobs Cases.busyStore)) as Hperm
    by apply reverse_Permutation.
  split; [exact Hperm|].
  exact (proj1 (cloneMap_any_order (PrintJobs Cases.busyStore) l Hperm)).
Defined.

(** ** Failing snapshots *)

(** X13. When [Restore] returns an error (the reader failed or the bytes
    do not decode) the FSM keeps the store it had. *)
Theorem Restore_keeps_store_on_failure `{J : Json} s rc e s' :
  Restore s rc = (e, s') → is_Some e → s' = s.
Proof.
  intros Hres [err ->]. by destruct (Restore_failure s rc err s' Hres).
Qed.

Lemma Restore_keeps_store_on_failure_witness :
  let rc : error + bytes := inr (Demo.text "not a snapshot") in
  is_Some (Restore Demo.shopStore rc).1 ∧ (Restore Demo.shopStore rc).2 = Demo.shopStore.
Proof.
  intros rc. destruct (Restore Demo.shopStore rc) as [e s'] eqn:Hres.
  assert (is_Some e) as He.
  { apply (f_equal fst) in Hres. vm_compute in Hres. rewrite <- Hres. by eexists. }
  split; [exact He|].
  exact (Restore_keeps_store_on_failure Demo.shopStore rc e s' Hres He).
Defined.



(** ** The life of a job *)



(** X16. A successful UpdatePrintJob touches the job it names and nothing
    else of it than the status and [updated_at]: id, printer, filament,
    file, weight and [created_at] are kept, every other job, every printer
    and the id counters are as before. *)
Theorem UpdatePrintJob_frame `{J : Json} s clk id status job' s' clk' :
  applyUpdatePrintJob s clk id status = (RespPrintJob job', s', clk') →
  (∃ job, PrintJobs s !! id = Some job
          ∧ job' = mkPrintJob (PrintJob_ID job) (PrinterID job) (FilamentID job)
                     (Filepath job) (PrintWeightInGrams job) status (CreatedAt job)
                     (clk O))
  ∧ (∀ k, k ≠ id → PrintJobs s' !! k = PrintJobs s !! k)
  ∧ Printers s' = Printers s
  ∧ NextID s' = NextID s.
Proof.
  intros Happ.
  destruct (PrintJobs s !! id) as [job|] eqn:Hjob.
  - pose proof Happ as Happ0.
    rewrite (applyUpdatePrintJob_found _ _ _ _ _ Hjob) in Happ. cbv zeta in Happ.
    destruct (ValidatePrintJobStatusTransition _ _); [discriminate Happ|].
    injection Happ as <- <- _. split; [by eauto|]. split.
    + intros k Hk. by apply (applyUpdatePrintJob_other _ _ _ _ _ _ _ k Happ0).
    + simpl. by case_decide.
  - rewrite applyUpdatePrintJob_missing in Happ by done. discriminate Happ.
Qed.

Lemma UpdatePrintJob_frame_witness :
  ∃ job' s' clk',
    applyUpdatePrintJob Cases.busyStore Demo.clock "j1" Running
    = (RespPrintJob job', s', clk')
    ∧ PrintJobs s' !! "j2" = PrintJobs Cases.busyStore !! "j2"
    ∧ NextID s' = NextID Cases.busyStore.
Proof.
  destruct (applyUpdatePrintJob Cases.busyStore Demo.clock "j1" Running)
    as [[r s'] clk'] eqn:Happ.
  assert (r = RespPrintJob (mkPrintJob "j1" "p1" "f1" "a.gcode" 60 Running 1
                              1700000000000000000)) as Hr.
  { apply (f_equal (λ x, x.1.1)) in Happ. vm_compute in Happ. done. }
  subst r. eexists _, s', clk'. split; [done|].
  destruct (UpdatePrintJob_frame Cases.busyStore Demo.clock "j1" Running _ s' clk' Happ)
    as (_ & Hother & _ & Hnext).
  split; [by apply Hother|exact Hnext].
Defined.

(** ** The consensus adapter *)

Lemma alreadyJoined_spec servers nodeID addr :
  alreadyJoined servers nodeID addr = true
  ↔ ∃ srv, srv ∈ servers ∧ (Server_ID srv = nodeID ∨ Server_Address srv = addr).
Proof.
  induction servers as [|srv servers IH]; simpl.
  - split; [done|]. intros (srv & Hin & _). by apply elem_of_nil in Hin.
  - case_decide as Hm.
    + split; [|done]. intros _. exists srv. split; [by left|done].
    + rewrite IH. split.
      * intros (srv' & Hin & Hsrv). exists srv'. split; [by right|done].
      * intros (srv' & [->|Hin]%elem_of_cons & Hsrv); [done|by eauto].
Qed.

(** X17. [Join] is idempotent on the id or on the address alone: when the
    configuration already lists a server with the given id or with the
    given address, [Join] returns nil whatever [AddVoter] would answer;
    otherwise its result is the result of [AddVoter]. *)
Theorem Join_known_or_added n nodeID addr servers :
  node_GetConfiguration n = inr servers →
  ((∃ srv, srv ∈ servers ∧ (Server_ID srv = nodeID ∨ Server_Address srv = addr)) →
   Join n nodeID addr = None)
  ∧ ((∀ srv, srv ∈ servers → Server_ID srv ≠ nodeID ∧ Server_Address srv ≠ addr) →
     Join n nodeID addr = node_AddVoter n nodeID addr).
Proof.
  intros Hcfg. unfold Join. rewrite Hcfg. split.
  - intros Hex. apply alreadyJoined_spec in Hex. by rewrite Hex.
  - intros Hnone.
    destruct (alreadyJoined servers nodeID addr) eqn:Hj.
    + apply alreadyJoined_spec in Hj as (srv & Hin & Hsrv).
      destruct (Hnone srv Hin). tauto.
    + by destruct (node_AddVoter n nodeID addr).
Qed.

Lemma Join_known_or_added_witness :
  node_GetConfiguration Cases.leader = inr Cases.cluster
  ∧ Join Cases.leader "node2" "127.0.0.1:9999" = None
  ∧ Join Cases.leader "node3" "127.0.0.1:9003" = Some "timed out enqueuing operation".
Proof.
  split; [done|].
  destruct (Join_known_or_added Cases.leader "node2" "127.0.0.1:9999" Cases.cluster
              eq_refl) as [Hknown _].
  destruct (Join_known_or_added Cases.leader "node3" "127.0.0.1:9003" Cases.cluster
              eq_refl) as [_ Hadded].
  split.
  - apply Hknown. exists (mkServer "node2" "127.0.0.1:9002"). split; [|by left].
    unfold Cases.cluster. set_solver.
  - rewrite Hadded; [done|]. intros srv Hin. unfold Cases.cluster in Hin.
    apply elem_of_cons in Hin as [->|Hin]; [by split|].
    apply elem_of_cons in Hin as [->|Hin]; [by split|].
    by apply elem_of_nil in Hin.
Defined.

(** X18. [ApplyCommand] returns a result or an error, never both and
    never neither.  A result is returned only by a leader, it is the
    response of the FSM to the encoded command, and it is never an error
    value: an error answered by the FSM comes back as the error. *)
Theorem ApplyCommand_result_or_error marshal n cmd result err :
  ApplyCommand marshal n cmd = (result, err) →
  (result = None ↔ is_Some err)
  ∧ ∀ response, result = Some response →
      node_isLeader n = true ∧ is_error response = false
      ∧ ∃ data, marshal cmd = inr data ∧ node_Apply n data = inr response.
Proof.
  unfold ApplyCommand. destruct (node_isLeader n); simpl.
  - destruct (marshal cmd) as [e|data] eqn:Hm.
    { intros [= <- <-]. split; [split; eauto|]. intros ? [=]. }
    destruct (node_Apply n data) as [e|response] eqn:Ha.
    { intros [= <- <-]. split; [split; eauto|]. intros ? [=]. }
    destruct response as [e|p|f|job]; intros [= <- <-].
    { split; [split; eauto|]. intros ? [=]. }
    all: split; [split; [done|by intros [? [=]]]|].
    all: intros ? [= <-]; eauto.
  - intros [= <- <-]. split; [split; eauto|]. intros ? [=].
Qed.

Lemma ApplyCommand_result_or_error_witness :
  ApplyCommand Cases.marshalCommand Cases.leader
    (Demo.createPrintJob (Demo.job "j1" 60))
  = (Some (RespPrintJob (mkPrintJob "j1" "p1" "f1" "benchy.gcode" 60 Queued
                           1700000000000000000 1700000000000000001)), None)
  ∧ node_isLeader Cases.leader = true.
Proof.
  assert (ApplyCommand Cases.marshalCommand Cases.leader
            (Demo.createPrintJob (Demo.job "j1" 60))
          = (Some (RespPrintJob (mkPrintJob "j1" "p1" "f1" "benchy.gcode" 60 Queued
                                   1700000000000000000 1700000000000000001)), None))
    as Happ by (by vm_compute).
  split; [exact Happ|].
  exact (proj1 (proj2 (ApplyCommand_result_or_error _ _ _ _ _ Happ) _ eq_refl)).
Defined.

(** ** The read side *)

(** X19. [GetPrintJobs] returns, in some order and each once, the jobs of
    the store whose status is the query parameter, and every job of the
    store when the parameter is empty. *)
Theorem GetPrintJobs_filter s status :
  GetPrintJobs s status
  ≡ₚ filter (λ job, status = "" ∨ PrintJob_Status job = status)
       (map_to_list (PrintJobs s)).*2.
Proof.
  unfold GetPrintJobs. rewrite map_fold_foldr.
  induction (map_to_list (PrintJobs s)) as [|[k job] l IH]; [done|].
  rewrite fmap_cons, filter_cons, foldr_cons. simpl.
  destruct (decide (status = "" ∨ PrintJob_Status job = status)).
  - rewrite <- IH. by rewrite Permutation_app_comm.
  - done.
Qed.

(** ** The key-value variant *)

(** X20. After a committed set the key reads back the value that was set,
    and every other key reads as before. *)
Theorem KV_set_then_Get unmarshal data log cmd :
  unmarshal log = inr cmd → KV.Op cmd = "set" →
  (KV.Apply unmarshal data log).1 = None
  ∧ KV.Get (KV.Apply unmarshal data log).2 (KV.Key cmd) = (KV.Value cmd, None)
  ∧ ∀ key, key ≠ KV.Key cmd →
      KV.Get (KV.Apply unmarshal data log).2 key = KV.Get data key.
Proof.
  intros Hd Hop. unfold KV.Apply, KV.Get. rewrite Hd, decide_True by done. simpl.
  split; [done|]. rewrite lookup_insert_eq. split; [done|].
  intros key Hne. by rewrite lookup_insert_ne.
Qed.

Lemma KV_set_then_Get_witness :
  let log := Cases.kvEntry (KV.mkCommand "set" "printer_p1" "ender") in
  Cases.kvUnmarshal log = inr (KV.mkCommand "set" "printer_p1" "ender")
  ∧ KV.Get (KV.Apply Cases.kvUnmarshal ∅ log).2 "printer_p1" = ("ender", None).
Proof.
  intros log.
  assert (Cases.kvUnmarshal log = inr (KV.mkCommand "set" "printer_p1" "ender")) as Hd
    by (by vm_compute).
  split; [exact Hd|].
  exact (proj1 (proj2 (KV_set_then_Get Cases.kvUnmarshal ∅ log _ Hd eq_refl))).
Defined.

(** X21. After a committed delete the key is not found, whether or not
    it was there, and every other key reads as before. *)
Theorem KV_delete_then_Get unmarshal data log cmd :
  unmarshal log = inr cmd → KV.Op cmd = "delete" →
  (KV.Apply unmarshal data log).1 = None
  ∧ KV.Get (KV.Apply unmarshal data log).2 (KV.Key cmd)
    = ("", Some ("key not found: " +:+ KV.Key cmd))
  ∧ ∀ key, key ≠ KV.Key cmd →
      KV.Get (KV.Apply unmarshal data log).2 key = KV.Get data key.
Proof.
  intros Hd Hop. unfold KV.Apply, KV.Get. rewrite Hd, Hop. simpl.
  split; [done|]. rewrite lookup_delete_eq. split; [done|].
  intros key Hne. by rewrite lookup_delete_ne.
Qed.

Lemma KV_delete_then_Get_witness :
  let log := Cases.kvEntry (KV.mkCommand "delete" "printer_p1" "") in
  Cases.kvUnmarshal log = inr (KV.mkCommand "delete" "printer_p1" "")
  ∧ KV.Get (KV.Apply Cases.kvUnmarshal Cases.kvData log).2 "printer_p1"
    = ("", Some "key not found: printer_p1")
  ∧ KV.Get (KV.Apply Cases.kvUnmarshal Cases.kvData log).2 "printer_p2"
    = ("prusa", None).
Proof.
  intros log.
  assert (Cases.kvUnmarshal log = inr (KV.mkCommand "delete" "printer_p1" "")) as Hd
    by (by vm_compute).
  split; [exact Hd|].
  destruct (KV_delete_then_Get Cases.kvUnmarshal Cases.kvData log _ Hd eq_refl)
    as (_ & Hgone & Hother).
  split; [exact Hgone|]. by rewrite Hother.
Defined.

(** X22. An entry that does not decode, or whose operation is neither
    set nor delete, is answered with an error and changes no key. *)
Theorem KV_Apply_error_keeps_data unmarshal data log e data' :
  KV.Apply unmarshal data log = (Some e, data') → data' = data.
Proof.
  unfold KV.Apply. destruct (unmarshal log) as [err|cmd]; [by intros [= _ <-]|].
  repeat case_decide; by intros [=].
Qed.

Lemma KV_Apply_error_keeps_data_witness :
  let log := Cases.kvEntry (KV.mkCommand "rename" "printer_p1" "x") in
  KV.Apply Cases.kvUnmarshal Cases.kvData log
  = (Some "unknown command operation: rename", Cases.kvData).
Proof.
  intros log.
  destruct (KV.Apply Cases.kvUnmarshal Cases.kvData log) as [e data'] eqn:Happ.
  assert (e = Some "unknown command operation: rename") as ->.
  { apply (f_equal fst) in Happ. vm_compute in Happ. done. }
  by rewrite (KV_Apply_error_keeps_data _ _ _ _ _ Happ).
Defined.

(** X23. [List] never fails and returns, each once, exactly the keys of
    the store that start with the prefix. *)
Theorem KV_List_prefix data prefix :
  (KV.List data prefix).2 = None
  ∧ NoDup (KV.List data prefix).1
  ∧ ∀ key, key ∈ (KV.List data prefix).1
           ↔ is_Some (data !! key) ∧ String.prefix prefix key = true.
Proof.
  unfold KV.List. simpl. split; [done|].
  assert (map_fold (λ k (_ : string) keys,
                      if String.prefix prefix k then keys ++ [k] else keys) [] data
          ≡ₚ filter (λ k, String.prefix prefix k = true) (map_to_list data).*1) as Hperm.
  { rewrite map_fold_foldr.
    induction (map_to_list data) as [|[k v] l IH]; [done|].
    rewrite fmap_cons, filter_cons, foldr_cons. simpl.
    destruct (String.prefix prefix k) eqn:Hp.
    - rewrite decide_True by done. rewrite <- IH. by rewrite Permutation_app_comm.
    - rewrite decide_False by done. done. }
  split.
  - rewrite Hperm. apply NoDup_filter, NoDup_fst_map_to_list.
  - intros key. rewrite Hperm, list_elem_of_filter, list_elem_of_fmap.
    split.
    + intros [Hp ([k v] & -> & Hin)]. apply elem_of_map_to_list in Hin.
      split; [by eexists|done].
    + intros [[v Hv] Hp]. split; [done|]. exists (key, v).
      split; [done|]. by apply elem_of_map_to_list.
Qed.

(** X24. The two status validators of the repository permit the same
    transitions: the string validator of the key-value variant returns nil
    on exactly the pairs on which the validator of the models does. *)
Theorem validators_agree current proposed :
  KV.ValidatePrintJobStatusTransition current proposed = None
  ↔ ValidatePrintJobStatusTransition current proposed = None.
Proof.
  rewrite ValidatePrintJobStatusTransition_delta.
  unfold KV.ValidatePrintJobStatusTransition, delta.
  rewrite bool_decide_eq_true. unfold Queued, Running, Done, Canceled.
  repeat (match goal with |- context [decide ?P] => destruct (decide P) end);
    intuition (subst; try discriminate; try congruence).
Qed.
